(** * A command-line password generator (main.py), embedded in Rocq

    The program builds a character pool from two flags, draws characters
    from it with [secrets.choice], prints the password and optionally
    appends it to a file.  Pure functions of the source are Rocq functions;
    code that draws random numbers, prints or touches files is written in
    a state-and-exception monad over an explicit [World]. *)

From Stdlib Require Import ZArith List String Ascii Bool Lia.
Import ListNotations.

Local Open Scope string_scope.
Local Open Scope Z_scope.

(** ** Python's [string] module: the constants the pool is made of *)

Module PyString.

Definition ascii_lowercase : string := "abcdefghijklmnopqrstuvwxyz".
Definition ascii_uppercase : string := "ABCDEFGHIJKLMNOPQRSTUVWXYZ".
Definition ascii_letters : string := ascii_lowercase ++ ascii_uppercase.
Definition digits : string := "0123456789".

(** [string.punctuation]; the double quote (code 34) is spelled by its
    code. *)
Definition punctuation : string :=
  "!" ++ String "034" "#$%&'()*+,-./:;<=>?@[\]^_`{|}~".

(** [c in s] for a one-character [c]. *)
Definition mem (c : ascii) (s : string) : bool :=
  existsb (Ascii.eqb c) (list_ascii_of_string s).

(** ["".join(parts)] *)
Definition join (parts : list string) : string := String.concat "" parts.

End PyString.

(** ** Exceptions and results *)

Inductive exn : Type :=
| ValueError (msg : string)
| IndexError (msg : string)
| ArgumentTypeError (msg : string)
| OSError (msg : string)
| SystemExit (code : Z)
| TypeError (msg : string).

Inductive result (A : Type) : Type :=
| Return (a : A)
| Raise (e : exn).

Arguments Return {A} a.
Arguments Raise {A} e.

(** ** The services the program gets from its platform

    [int], [secrets.choice] and [open] are not code of the program.  They
    are taken as an interface: [py_int] is [int(str)] ([None] when it
    raises [ValueError]); [randbelow n] is the secure source's index below
    [n], which [random.choice] relies on; [fs_append path data] opens
    [path] in append mode and writes [data], answering [inl msg] when an
    [OSError] is raised. *)

Class Platform : Type := {
  py_int : string -> option Z;
  rng_state : Type;
  randbelow : nat -> rng_state -> nat * rng_state;
  randbelow_lt :
    forall n s, (0 < n)%nat -> (fst (randbelow n s) < n)%nat;
  fs_state : Type;
  fs_append : string -> string -> fs_state -> (string + unit) * fs_state
}.

(** What the process writes, in the order it writes it. *)
Inductive event : Type :=
| Stdout (line : string)          (* print(line) *)
| Stderr (line : string)          (* print(line, file=sys.stderr) *)
| HelpMessage                     (* argparse: print_help(), on stdout *)
| UsageError (msg : string).      (* argparse: usage and error, on stderr *)

Section Program.

Context `{P : Platform}.

Record World : Type := mkWorld {
  rng : rng_state;
  files : fs_state;
  log : list event
}.

(** State and exceptions: a computation takes the world and gives back a
    result, or the exception raised, with the world it leaves. *)
Definition Py (A : Type) : Type := World -> result A * World.

Definition ret {A} (a : A) : Py A := fun w => (Return a, w).
Definition raise {A} (e : exn) : Py A := fun w => (Raise e, w).
Definition bind {A B} (m : Py A) (k : A -> Py B) : Py B :=
  fun w =>
    match m w with
    | (Return a, w') => k a w'
    | (Raise e, w') => (Raise e, w')
    end.

(** [try: m except <handled>: h] *)
Definition try_except {A} (m : Py A) (h : exn -> option (Py A)) : Py A :=
  fun w =>
    match m w with
    | (Return a, w') => (Return a, w')
    | (Raise e, w') =>
        match h e with
        | Some k => k w'
        | None => (Raise e, w')
        end
    end.

Definition emit (e : event) : Py unit :=
  fun w => (Return tt, mkWorld (rng w) (files w) (log w ++ [e])%list).

End Program.

Notation "x <- m ;; k" := (bind m (fun x => k))
  (at level 61, m at next level, right associativity).
Notation "m ;;; k" := (bind m (fun _ => k))
  (at level 61, right associativity).

(** ** The program *)

Section Source.

Context `{P : Platform}.

Definition DEFAULT_LENGTH : Z := 12.

(** [positive_int]: pure, it either returns the parsed value or raises
    [ArgumentTypeError]. *)
Definition positive_int (value : string) : result Z :=
  match py_int value with
  | None => Raise (ArgumentTypeError ("invalid int value: " ++ value))
  | Some parsed_value =>
      if parsed_value <? 1
      then Raise (ArgumentTypeError "length must be >= 1")
      else Return parsed_value
  end.

(** [build_character_pool]: the list [pool_parts] grows by [append] and
    is joined at the end. *)
Definition build_character_pool
    (include_numbers include_symbols : bool) : string :=
  let pool_parts := [PyString.ascii_letters] in
  let pool_parts :=
    if include_numbers then (pool_parts ++ [PyString.digits])%list
    else pool_parts in
  let pool_parts :=
    if include_symbols then (pool_parts ++ [PyString.punctuation])%list
    else pool_parts in
  PyString.join pool_parts.

(** [secrets.choice(seq)], that is [random.choice] of the system source:
    [IndexError] on an empty sequence, else [seq[randbelow(len(seq))]]. *)
Definition choice (seq : string) : Py ascii :=
  fun w =>
    match String.length seq with
    | O => (Raise (IndexError "Cannot choose from an empty sequence"), w)
    | n =>
        let (i, s') := randbelow n (rng w) in
        let w' := mkWorld s' (files w) (log w) in
        match String.get i seq with
        | Some c => (Return c, w')
        | None => (Raise (IndexError "string index out of range"), w')
        end
    end.

(** ["".join(choice(pool) for _ in range(n))]: the generator is run [n]
    times, drawing one character each time, left to right. *)
Fixpoint join_choices (n : nat) (pool : string) : Py string :=
  match n with
  | O => ret ""
  | S n' =>
      c <- choice pool ;;
      rest <- join_choices n' pool ;;
      ret (String c rest)
  end.

(** [range(length)] has [max(length, 0)] elements. *)
Definition range_len (length : Z) : nat := Z.to_nat length.

Definition generate_password
    (length : Z) (include_numbers include_symbols : bool) : Py string :=
  let character_pool :=
    build_character_pool include_numbers include_symbols in
  if String.eqb character_pool ""
  then raise (ValueError "Character pool is empty")
  else join_choices (range_len length) character_pool.

End Source.

(** ** The command line

    [parse_args] hands [argv] to an [argparse.ArgumentParser] that has the
    four options the source declares and, because [add_help] is left at
    its default, [-h/--help].  The parser is library code; what is
    embedded here is its behaviour for option strings spelled in full with
    their value in the next argument: classification of every argument
    first, then one pass from left to right that takes each option's
    action as it is met.  Abbreviated long options, [--opt=value] and
    clustered short options are not modelled here (they are classified as
    unknown options), and characters are ASCII.  The parser with these
    spellings is embedded further down, in [Full]; the two agree on
    command lines spelled in full ([full_main_agrees]). *)

Module Namespace.

Record t : Type := mk {
  length : Z;
  numbers : bool;
  symbols : bool;
  save : option string
}.

Definition set_length (v : Z) (ns : t) : t :=
  mk v (numbers ns) (symbols ns) (save ns).
Definition set_numbers (v : bool) (ns : t) : t :=
  mk (length ns) v (symbols ns) (save ns).
Definition set_symbols (v : bool) (ns : t) : t :=
  mk (length ns) (numbers ns) v (save ns).
Definition set_save (v : option string) (ns : t) : t :=
  mk (length ns) (numbers ns) (symbols ns) v.

End Namespace.

Module Argparse.

Local Open Scope string_scope.

Inductive action : Type :=
| help
| store_length      (* -l/--length, type=positive_int *)
| store_numbers     (* -n/--numbers, store_true *)
| store_symbols     (* -s/--symbols, store_true *)
| store_save.       (* --save FILE *)

Definition option_string_actions (s : string) : option action :=
  if (s =? "-h") || (s =? "--help") then Some help
  else if (s =? "-l") || (s =? "--length") then Some store_length
  else if (s =? "-n") || (s =? "--numbers") then Some store_numbers
  else if (s =? "-s") || (s =? "--symbols") then Some store_symbols
  else if s =? "--save" then Some store_save
  else None.

(** Number of arguments an option takes: [nargs=None] is one,
    [store_true] and help take none. *)
Definition nargs (a : action) : nat :=
  match a with
  | store_length | store_save => 1
  | help | store_numbers | store_symbols => 0
  end.

Definition action_name (a : action) : string :=
  match a with
  | help => "-h/--help"
  | store_length => "-l/--length"
  | store_numbers => "-n/--numbers"
  | store_symbols => "-s/--symbols"
  | store_save => "--save"
  end.

Definition is_digit (c : ascii) : bool :=
  let n := nat_of_ascii c in (48 <=? n)%nat && (n <=? 57)%nat.

Definition all_digits (s : string) : bool :=
  forallb is_digit (list_ascii_of_string s).

(** The digits a string starts with, and what follows them. *)
Fixpoint span_digits (s : string) : string * string :=
  match s with
  | String c rest =>
      if is_digit c
      then let (d, r) := span_digits rest in (String c d, r)
      else ("", s)
  | EmptyString => ("", "")
  end.

(** A final newline, which [$] of a regular expression steps over. *)
Fixpoint drop_final_newline (s : string) : string :=
  match s with
  | String c EmptyString => if Ascii.eqb c "010" then "" else s
  | String c rest => String c (drop_final_newline rest)
  | EmptyString => ""
  end.

(** The parser's [_negative_number_matcher], [^-\d+$|^-\d*\.\d+$]. *)
Definition negative_number_like (s : string) : bool :=
  match drop_final_newline s with
  | String "-" body =>
      match span_digits body with
      | (d, EmptyString) => negb (d =? "")
      | (_, String "." frac) => negb (frac =? "") && all_digits frac
      | _ => false
      end
  | _ => false
  end.

Definition contains_space (s : string) : bool := PyString.mem " " s.

(** [_parse_optional]: [None] when the argument is a positional,
    [Some None] for an option the parser does not know. *)
Definition parse_optional (arg_string : string) : option (option action) :=
  match arg_string with
  | EmptyString => None
  | String c _ =>
      if negb (Ascii.eqb c "-") then None
      else
        match option_string_actions arg_string with
        | Some a => Some (Some a)
        | None =>
            if (String.length arg_string =? 1)%nat then None
            else if negative_number_like arg_string then None
            else if contains_space arg_string then None
            else Some None
        end
  end.

(** The letters of [arg_strings_pattern]. *)
Inductive arg_class : Type :=
| arg_A                        (* 'A': an argument *)
| arg_dashes                   (* '-': the separator [--] *)
| arg_O (a : option action).   (* 'O': an option string *)

Fixpoint classify (arg_strings : list string) : list arg_class :=
  match arg_strings with
  | [] => []
  | arg_string :: rest =>
      if arg_string =? "--"
      then arg_dashes :: map (fun _ => arg_A) rest
      else
        match parse_optional arg_string with
        | None => arg_A :: classify rest
        | Some a => arg_O a :: classify rest
        end
  end.

End Argparse.

Section CommandLine.

Context `{P : Platform}.

Import Argparse.

(** [parser.error(message)]: usage and message on standard error, then
    [sys.exit(2)]. *)
Definition parser_error {T} (message : string) : Py T :=
  emit (UsageError message) ;;; raise (SystemExit 2).

Definition argument_error {T} (a : action) (message : string) : Py T :=
  parser_error ("argument " ++ action_name a ++ ": " ++ message).

(** [_get_value] for [type=positive_int]: an [ArgumentTypeError] of the
    type function becomes a parser error. *)
Definition get_length_value (arg_string : string) : Py Z :=
  match positive_int arg_string with
  | Return v => ret v
  | Raise (ArgumentTypeError msg) => argument_error store_length msg
  | Raise e => raise e
  end.

(** [take_action]: convert the option's arguments, then run the action
    on the namespace. *)
Definition take_action
    (a : action) (args : list string) (namespace : Namespace.t)
  : Py Namespace.t :=
  match a, args with
  | help, _ => emit HelpMessage ;;; raise (SystemExit 0)
  | store_numbers, _ => ret (Namespace.set_numbers true namespace)
  | store_symbols, _ => ret (Namespace.set_symbols true namespace)
  | store_length, [arg_string] =>
      v <- get_length_value arg_string ;;
      ret (Namespace.set_length v namespace)
  | store_save, [arg_string] =>
      ret (Namespace.set_save (Some arg_string) namespace)
  | _, _ => argument_error a "expected one argument"
  end.

(** The loop of [_parse_known_args] over the arguments paired with their
    class.  The parser has no positionals, so every argument that is not
    an option's value goes to [extras]. *)
Fixpoint consume
    (items : list (string * arg_class))
    (namespace : Namespace.t) (extras : list string)
  : Py (Namespace.t * list string) :=
  match items with
  | [] => ret (namespace, extras)
  | (arg_string, arg_O (Some a)) :: rest =>
      match nargs a with
      | 0%nat =>
          namespace' <- take_action a [] namespace ;;
          consume rest namespace' extras
      | _ =>
          match rest with
          | (value, arg_A) :: rest' =>
              namespace' <- take_action a [value] namespace ;;
              consume rest' namespace' extras
          | _ => argument_error a "expected one argument"
          end
      end
  | (arg_string, _) :: rest =>
      consume rest namespace (extras ++ [arg_string])%list
  end.

Definition defaults : Namespace.t :=
  Namespace.mk DEFAULT_LENGTH false false None.

(** [parse_known_args]: the namespace starts from the declared
    defaults. *)
Definition parse_known_args (argv : list string)
  : Py (Namespace.t * list string) :=
  consume (combine argv (classify argv)) defaults [].

(** [parser.parse_args]: arguments nobody consumed are an error. *)
Definition reject_extras (parsed : Namespace.t * list string)
  : Py Namespace.t :=
  match snd parsed with
  | [] => ret (fst parsed)
  | extras =>
      parser_error ("unrecognized arguments: " ++ String.concat " " extras)
  end.

Definition parse_args (argv : list string) : Py Namespace.t :=
  parsed <- parse_known_args argv ;;
  reject_extras parsed.

(** [append_password_to_file]: the file is opened for appending and the
    password written with a newline; an [OSError] of either reaches the
    caller. *)
Definition append_password_to_file
    (password file_path : string) : Py unit :=
  fun w =>
    match fs_append file_path (password ++ String "010" "") (files w) with
    | (inr tt, fs') => (Return tt, mkWorld (rng w) fs' (log w))
    | (inl msg, fs') => (Raise (OSError msg), mkWorld (rng w) fs' (log w))
    end.

(** [if args.save:] holds for a non-empty string; [None] and the empty
    string are false. *)
Definition main (argv : list string) : Py Z :=
  args <- parse_args argv ;;
  password <- generate_password (Namespace.length args)
                (Namespace.numbers args) (Namespace.symbols args) ;;
  emit (Stdout password) ;;;
  match Namespace.save args with
  | Some (String _ _ as file_path) =>
      try_except
        (append_password_to_file password file_path ;;; ret 0)
        (fun error =>
           match error with
           | OSError msg =>
               Some (emit (Stderr ("Failed to save password to "
                                   ++ file_path ++ ": " ++ msg)) ;;;
                     ret 1)
           | _ => None
           end)
  | _ => ret 0
  end.

(** [raise SystemExit(main(sys.argv[1:]))]: the status the process ends
    with.  An exception other than [SystemExit] that nothing catches ends
    it with status 1. *)
Definition exit_status (r : result Z) : Z :=
  match r with
  | Return code => code
  | Raise (SystemExit code) => code
  | Raise _ => 1
  end.

Definition run (argv : list string) (w : World) : Z * World :=
  let (r, w') := main argv w in (exit_status r, w').

End CommandLine.

(** ** What a run leaves behind

    The world after a computation compared with the world before it, as
    the properties below state it. *)

Section Observations.

Context `{P : Platform}.

(** Drawing changes the random source and nothing else. *)
Definition same_but_rng (w w' : World) : Prop :=
  files w' = files w /\ log w' = log w.

End Observations.

(** ** Character classes, by code

    The classes the specification names, read off the ASCII table rather
    than off the constants of [PyString]: the pool constants are compared
    with them below. *)

Module CharClass.

Definition code (c : ascii) : nat := nat_of_ascii c.

Definition between (lo hi : nat) (c : ascii) : bool :=
  ((lo <=? code c) && (code c <=? hi))%nat.

Definition is_upper : ascii -> bool := between 65 90.
Definition is_lower : ascii -> bool := between 97 122.
Definition is_letter (c : ascii) : bool := is_upper c || is_lower c.
Definition is_digit : ascii -> bool := between 48 57.

(** Printable, not a space, neither letter nor digit. *)
Definition is_punctuation (c : ascii) : bool :=
  between 33 126 c && negb (is_letter c) && negb (is_digit c).

(** Every character of [s] satisfies [p]. *)
Definition all (p : ascii -> bool) (s : string) : bool :=
  forallb p (list_ascii_of_string s).

(** The characters of [s] are among those of [t]. *)
Definition subset (s t : string) : bool :=
  all (fun c => PyString.mem c t) s.

End CharClass.

(** ** Printable characters and strings without repetition *)

(** Printable and not blank: codes 33 to 126. *)
Definition printable (c : ascii) : bool := CharClass.between 33 126 c.

(** No character occurs twice in [s]. *)
Fixpoint distinct (s : string) : bool :=
  match s with
  | EmptyString => true
  | String c rest => negb (PyString.mem c rest) && distinct rest
  end.

(** ** Command lines spelled in full

    The command lines on which the embedding of the parser is exact: every
    argument is one of the parser's option strings, or does not start with
    a dash (so that the parser takes it for an argument whatever
    surrounds it). *)

Definition starts_with_dash (s : string) : bool :=
  match s with
  | String "-" _ => true
  | _ => false
  end.

Definition plain_token (s : string) : bool :=
  match Argparse.option_string_actions s with
  | Some _ => true
  | None => negb (starts_with_dash s)
  end.

Definition plain (argv : list string) : bool := forallb plain_token argv.

(** The options a user can give, with the spelling chosen, and the
    arguments they are written as. *)
Inductive cli_option : Type :=
| give_length (long : bool) (value : string)
| give_numbers (long : bool)
| give_symbols (long : bool)
| give_save (path : string).

Definition render_option (o : cli_option) : list string :=
  match o with
  | give_length long value => [if long then "--length" else "-l"; value]
  | give_numbers long => [if long then "--numbers" else "-n"]
  | give_symbols long => [if long then "--symbols" else "-s"]
  | give_save path => ["--save"; path]
  end.

Definition render (opts : list cli_option) : list string :=
  flat_map render_option opts.

Section Syntax.

Context `{P : Platform}.

(** A value is written so that it is an argument, and a length value is
    one that [positive_int] accepts. *)
Definition well_formed (o : cli_option) : bool :=
  match o with
  | give_length _ value =>
      negb (starts_with_dash value)
      && match positive_int value with
         | Return _ => true
         | Raise _ => false
         end
  | give_save path => negb (starts_with_dash path)
  | give_numbers _ | give_symbols _ => true
  end.

(** What an option does to the namespace. *)
Definition apply_option (namespace : Namespace.t) (o : cli_option)
  : Namespace.t :=
  match o with
  | give_length _ value =>
      match positive_int value with
      | Return v => Namespace.set_length v namespace
      | Raise _ => namespace
      end
  | give_numbers _ => Namespace.set_numbers true namespace
  | give_symbols _ => Namespace.set_symbols true namespace
  | give_save path => Namespace.set_save (Some path) namespace
  end.

Definition namespace_of (opts : list cli_option) : Namespace.t :=
  fold_left apply_option opts defaults.

(** [k] successive indices below [bound] from the random source. *)
Fixpoint draw_indices (k bound : nat) (s : rng_state)
  : list nat * rng_state :=
  match k with
  | O => ([], s)
  | S k' =>
      let (i, s1) := randbelow bound s in
      let (rest, s2) := draw_indices k' bound s1 in
      (i :: rest, s2)
  end.

(** The process exits from the parser: status 0 after the help message or
    status 2 after a usage error, and nothing else has happened. *)
Definition parser_exit {T} (w : World) (r : result T * World) : Prop :=
  exists code,
    fst r = Raise (SystemExit code)
    /\ rng (snd r) = rng w
    /\ files (snd r) = files w
    /\ ((code = 2
         /\ exists msg, log (snd r) = (log w ++ [UsageError msg])%list)
        \/ (code = 0 /\ log (snd r) = (log w ++ [HelpMessage])%list)).

End Syntax.

(** ** The parser with every spelling of an option

    [Argparse.parse_optional] above knows the option strings spelled in
    full.  The parser also accepts a long option cut to an unambiguous
    prefix ([--len]), a value joined with [=] ([--length=8], [-l=8]), a
    value attached to a short option ([-l8]) and short options in one
    argument ([-ns], [-nl8]).  This module embeds the parser with all of
    them, as [argparse] of Python 3.11 has them: [_parse_optional] with
    [_get_option_tuples], the loop of [consume_optional] over the options
    of one argument, and [_get_values], which drops an argument [--] and
    then stores an empty list.  Characters are ASCII, and [repr] is
    written for strings without quotes, backslashes or control
    characters. *)

Module Full.

Local Open Scope string_scope.

Import Argparse.

(** The keys of [_option_string_actions], in the order they were added. *)
Definition option_strings : list string :=
  ["-h"; "--help"; "-l"; "--length"; "-n"; "--numbers"; "-s"; "--symbols";
   "--save"].

(** [s.split('=', 1)] for an [s] that holds an ['=']. *)
Fixpoint split_eq (s : string) : option (string * string) :=
  match s with
  | EmptyString => None
  | String c rest =>
      if Ascii.eqb c "=" then Some (EmptyString, rest)
      else
        match split_eq rest with
        | Some (before, after) => Some (String c before, after)
        | None => None
        end
  end.

(** [(action, option_string, explicit_arg)]; the action is [None] for an
    option the parser does not know. *)
Record option_tuple : Type := mk_tuple {
  tuple_action : option action;
  tuple_string : string;
  tuple_explicit : option string
}.

(** [option_string[1] in prefix_chars] *)
Definition second_is_dash (s : string) : bool :=
  match s with
  | String _ (String "-" _) => true
  | _ => false
  end.

Definition tuples_where (matches : string -> option (option string))
  : list option_tuple :=
  flat_map
    (fun o =>
       match matches o, option_string_actions o with
       | Some explicit_arg, Some a => [mk_tuple (Some a) o explicit_arg]
       | _, _ => []
       end)
    option_strings.

(** [_get_option_tuples], called on an argument that starts with a dash and
    has at least two characters.  Two dashes: the options that start with
    what comes before the ['='].  One dash: the short option made of the
    first two characters, the rest being its explicit argument. *)
Definition get_option_tuples (option_string : string) : list option_tuple :=
  if second_is_dash option_string then
    let (option_prefix, explicit_arg) :=
      match split_eq option_string with
      | Some (before, after) => (before, Some after)
      | None => (option_string, None)
      end in
    tuples_where
      (fun o => if String.prefix option_prefix o then Some explicit_arg
                else None)
  else
    let short_option_prefix := substring 0 2 option_string in
    let short_explicit_arg :=
      substring 2 (String.length option_string - 2) option_string in
    tuples_where
      (fun o => if o =? short_option_prefix then Some (Some short_explicit_arg)
                else if String.prefix option_string o then Some None
                else None).

Definition repr (s : string) : string := "'" ++ s ++ "'".

Inductive arg_class : Type :=
| arg_A                            (* 'A': an argument *)
| arg_dashes                       (* '-': the separator [--] *)
| arg_O (t : option_tuple)         (* 'O': an option string *)
| arg_ambiguous (msg : string).    (* [_parse_optional] called [error] *)

Definition ambiguous_message (arg_string : string)
    (tuples : list option_tuple) : string :=
  "ambiguous option: " ++ arg_string ++ " could match "
  ++ String.concat ", " (map tuple_string tuples).

(** [_parse_optional] *)
Definition parse_optional (arg_string : string) : arg_class :=
  match arg_string with
  | EmptyString => arg_A
  | String c _ =>
      if negb (Ascii.eqb c "-") then arg_A
      else
        match option_string_actions arg_string with
        | Some a => arg_O (mk_tuple (Some a) arg_string None)
        | None =>
            if (String.length arg_string =? 1)%nat then arg_A
            else
              let with_eq :=
                match split_eq arg_string with
                | Some (option_string, explicit_arg) =>
                    match option_string_actions option_string with
                    | Some a =>
                        Some (mk_tuple (Some a) option_string
                                (Some explicit_arg))
                    | None => None
                    end
                | None => None
                end in
              match with_eq with
              | Some t => arg_O t
              | None =>
                  match get_option_tuples arg_string with
                  | [t] => arg_O t
                  | (_ :: _ :: _) as tuples =>
                      arg_ambiguous (ambiguous_message arg_string tuples)
                  | [] =>
                      if negative_number_like arg_string then arg_A
                      else if contains_space arg_string then arg_A
                      else arg_O (mk_tuple None arg_string None)
                  end
              end
        end
  end.

Fixpoint classify (arg_strings : list string) : list arg_class :=
  match arg_strings with
  | [] => []
  | arg_string :: rest =>
      if arg_string =? "--"
      then arg_dashes :: map (fun _ => arg_A) rest
      else parse_optional arg_string :: classify rest
  end.

(** The error [_parse_optional] raises first, while the arguments are
    classified and before any action is taken. *)
Fixpoint first_ambiguous (classes : list arg_class) : option string :=
  match classes with
  | [] => None
  | arg_ambiguous msg :: _ => Some msg
  | _ :: rest => first_ambiguous rest
  end.

(** What an option leaves in the namespace: a converted value or, when
    its one argument was [--], the empty list. *)
Inductive stored (T : Type) : Type :=
| Stored (value : T)
| EmptyList.

Arguments Stored {T} value.
Arguments EmptyList {T}.

Module Namespace.

Record t : Type := mk {
  length : stored Z;
  numbers : bool;
  symbols : bool;
  save : option (stored string)
}.

Definition set_length (v : stored Z) (ns : t) : t :=
  mk v (numbers ns) (symbols ns) (save ns).
Definition set_numbers (v : bool) (ns : t) : t :=
  mk (length ns) v (symbols ns) (save ns).
Definition set_symbols (v : bool) (ns : t) : t :=
  mk (length ns) (numbers ns) v (save ns).
Definition set_save (v : option (stored string)) (ns : t) : t :=
  mk (length ns) (numbers ns) (symbols ns) v.

End Namespace.

(** The options gathered from one argument by the loop of
    [consume_optional], each with its arguments. *)
Inductive gathered : Type :=
| gather_error (a : action) (msg : string)
| gather_done (tuples : list (action * list string))
| gather_more (tuples : list (action * list string)) (last : action).

Definition gather_cons (t : action * list string) (g : gathered)
  : gathered :=
  match g with
  | gather_error a msg => gather_error a msg
  | gather_done tuples => gather_done (t :: tuples)
  | gather_more tuples last => gather_more (t :: tuples) last
  end.

(** The loop on an option with an explicit argument.  An option without
    arguments, written with one dash, hands the explicit argument over:
    its first character names the next option, the rest is that option's
    explicit argument.  [gather_more] is returned when the last option is
    left without explicit argument and takes what follows. *)
Fixpoint gather (a : action) (option_string explicit_arg : string)
  : gathered :=
  match explicit_arg with
  | EmptyString =>
      match nargs a with
      | 1%nat => gather_done [(a, [explicit_arg])]
      | _ => gather_error a ("ignored explicit argument " ++ repr explicit_arg)
      end
  | String c rest =>
      match nargs a with
      | 0%nat =>
          if second_is_dash option_string
          then gather_error a
                 ("ignored explicit argument " ++ repr explicit_arg)
          else
            let option_string' := String "-" (String c EmptyString) in
            match option_string_actions option_string' with
            | Some a' =>
                gather_cons (a, [])
                  match rest with
                  | EmptyString => gather_more [] a'
                  | _ => gather a' option_string' rest
                  end
            | None =>
                gather_error a
                  ("ignored explicit argument " ++ repr explicit_arg)
            end
      | _ => gather_done [(a, [explicit_arg])]
      end
  end.

End Full.

Section FullCommandLine.

Context `{P : Platform}.

Import Argparse.

(** [arg_strings.remove('--')] of [_get_values] *)
Fixpoint remove_dashes (arg_strings : list string) : list string :=
  match arg_strings with
  | [] => []
  | s :: rest => if (s =? "--")%string then rest else s :: remove_dashes rest
  end.

(** [_get_values] for an option that takes one argument: the argument
    converted, or the empty list when nothing is left of the arguments. *)
Definition get_values {T} (convert : string -> Py T)
    (arg_strings : list string) : Py (Full.stored T) :=
  match remove_dashes arg_strings with
  | [arg_string] => v <- convert arg_string ;; ret (Full.Stored v)
  | _ => ret Full.EmptyList
  end.

Definition full_take_action
    (a : action) (args : list string) (namespace : Full.Namespace.t)
  : Py Full.Namespace.t :=
  match a with
  | help => emit HelpMessage ;;; raise (SystemExit 0)
  | store_numbers => ret (Full.Namespace.set_numbers true namespace)
  | store_symbols => ret (Full.Namespace.set_symbols true namespace)
  | store_length =>
      v <- get_values get_length_value args ;;
      ret (Full.Namespace.set_length v namespace)
  | store_save =>
      v <- get_values ret args ;;
      ret (Full.Namespace.set_save (Some v) namespace)
  end.

(** The actions of one argument are taken after all of them have been
    gathered. *)
Fixpoint take_actions
    (tuples : list (action * list string)) (namespace : Full.Namespace.t)
  : Py Full.Namespace.t :=
  match tuples with
  | [] => ret namespace
  | (a, args) :: rest =>
      namespace' <- full_take_action a args namespace ;;
      take_actions rest namespace'
  end.

Fixpoint full_consume
    (items : list (string * Full.arg_class))
    (namespace : Full.Namespace.t) (extras : list string)
  : Py (Full.Namespace.t * list string) :=
  match items with
  | [] => ret (namespace, extras)
  | (arg_string, Full.arg_O (Full.mk_tuple (Some a) option_string explicit))
      :: rest =>
      match
        match explicit with
        | Some explicit_arg => Full.gather a option_string explicit_arg
        | None => Full.gather_more [] a
        end
      with
      | Full.gather_error a' msg => argument_error a' msg
      | Full.gather_done tuples =>
          namespace' <- take_actions tuples namespace ;;
          full_consume rest namespace' extras
      | Full.gather_more tuples last =>
          match nargs last with
          | 0%nat =>
              namespace' <-
                take_actions (tuples ++ [(last, [])])%list namespace ;;
              full_consume rest namespace' extras
          | _ =>
              match rest with
              | (value, Full.arg_A) :: rest' =>
                  namespace' <-
                    take_actions (tuples ++ [(last, [value])])%list
                      namespace ;;
                  full_consume rest' namespace' extras
              | _ => argument_error last "expected one argument"
              end
          end
      end
  | (arg_string, Full.arg_ambiguous msg) :: rest => parser_error msg
  | (arg_string, _) :: rest =>
      full_consume rest namespace (extras ++ [arg_string])%list
  end.

Definition full_defaults : Full.Namespace.t :=
  Full.Namespace.mk (Full.Stored DEFAULT_LENGTH) false false None.

Definition full_parse_known_args (argv : list string)
  : Py (Full.Namespace.t * list string) :=
  let classes := Full.classify argv in
  match Full.first_ambiguous classes with
  | Some msg => parser_error msg
  | None => full_consume (combine argv classes) full_defaults []
  end.

Definition full_reject_extras (parsed : Full.Namespace.t * list string)
  : Py Full.Namespace.t :=
  match snd parsed with
  | [] => ret (fst parsed)
  | extras =>
      parser_error ("unrecognized arguments: " ++ String.concat " " extras)
  end.

Definition full_parse_args (argv : list string) : Py Full.Namespace.t :=
  parsed <- full_parse_known_args argv ;;
  full_reject_extras parsed.

(** [generate_password] on what the namespace holds: [range] of a list
    raises [TypeError], after the pool has been built. *)
Definition generate_password_stored
    (length : Full.stored Z) (include_numbers include_symbols : bool)
  : Py string :=
  match length with
  | Full.Stored n => generate_password n include_numbers include_symbols
  | Full.EmptyList =>
      if String.eqb (build_character_pool include_numbers include_symbols) ""
      then raise (ValueError "Character pool is empty")
      else raise (TypeError
                    "'list' object cannot be interpreted as an integer")
  end.

(** [main] with the parser in full. *)
Definition full_main (argv : list string) : Py Z :=
  args <- full_parse_args argv ;;
  password <- generate_password_stored (Full.Namespace.length args)
                (Full.Namespace.numbers args) (Full.Namespace.symbols args) ;;
  emit (Stdout password) ;;;
  match Full.Namespace.save args with
  | Some (Full.Stored (String _ _ as file_path)) =>
      try_except
        (append_password_to_file password file_path ;;; ret 0)
        (fun error =>
           match error with
           | OSError msg =>
               Some (emit (Stderr ("Failed to save password to "
                                   ++ file_path ++ ": " ++ msg)) ;;;
                     ret 1)
           | _ => None
           end)
  | _ => ret 0
  end.

End FullCommandLine.

(** ** The spellings of a length argument

    The ways a value can be given to the length option: after [-l],
    [--length] or an abbreviation of it, as the next argument or joined
    with [=], or attached to [-l]; [-l] may come last in one argument
    with the flags [-n] and [-s], written [fs].  The value [--] is left
    out where it is joined or attached: the parser drops it and stores an
    empty list without calling [positive_int]. *)

Definition long_names : list string :=
  ["--length"; "--lengt"; "--leng"; "--len"; "--le"; "--l"].

(** A string of the letters [n] and [s]. *)
Definition flags (fs : string) : bool :=
  CharClass.all (fun c => Ascii.eqb c "n" || Ascii.eqb c "s") fs.

(** A value can be attached to [-l] when it is not empty and does not
    start with [=], the joining sign. *)
Definition attachable (value : string) : bool :=
  match value with
  | EmptyString => false
  | String c _ => negb (Ascii.eqb c "=")
  end.

Definition separate_spellings (fs value : string) : list (list string) :=
  ["-" ++ fs ++ "l"; value] :: map (fun o => [o; value]) long_names.

Definition joined_spellings (fs value : string) : list (list string) :=
  List.app
    (map (fun o => [o ++ "=" ++ value]) long_names)
    (if (fs =? "")%string then [["-l=" ++ value]] else []).

Definition attached_spellings (fs value : string) : list (list string) :=
  if attachable value then [["-" ++ fs ++ "l" ++ value]] else [].

Definition length_spellings (fs value : string) : list (list string) :=
  List.app (separate_spellings fs value)
    (if (value =? "--")%string then []
     else List.app (joined_spellings fs value) (attached_spellings fs value)).

(** An argument asks for help when help is among the options the parser
    reads in it. *)
Definition is_help (a : Argparse.action) : bool :=
  match a with
  | Argparse.help => true
  | _ => false
  end.

Definition gathered_help (g : Full.gathered) : bool :=
  match g with
  | Full.gather_error _ _ => false
  | Full.gather_done tuples => existsb (fun t => is_help (fst t)) tuples
  | Full.gather_more tuples last =>
      existsb (fun t => is_help (fst t)) tuples || is_help last
  end.

Definition asks_help (arg_string : string) : bool :=
  match Full.parse_optional arg_string with
  | Full.arg_O (Full.mk_tuple (Some a) option_string (Some explicit_arg)) =>
      gathered_help (Full.gather a option_string explicit_arg)
  | Full.arg_O (Full.mk_tuple (Some a) _ None) => is_help a
  | _ => false
  end.

(** What the loop of [consume_optional] starts from, for an option the
    parser knows. *)
Definition opening (t : Full.option_tuple) : option Full.gathered :=
  match t with
  | Full.mk_tuple (Some a) option_string (Some explicit_arg) =>
      Some (Full.gather a option_string explicit_arg)
  | Full.mk_tuple (Some a) _ None => Some (Full.gather_more [] a)
  | Full.mk_tuple None _ _ => None
  end.

(** The options gathered are all [-n] or [-s]. *)
Definition only_flags (tuples : list (Argparse.action * list string))
  : bool :=
  forallb
    (fun t =>
       match fst t with
       | Argparse.store_numbers | Argparse.store_symbols => true
       | _ => false
       end)
    tuples.

Definition tuples_help (tuples : list (Argparse.action * list string))
  : bool :=
  existsb (fun t => is_help (fst t)) tuples.

(** Whether the options of an argument of this class include help. *)
Definition item_help (cls : Full.arg_class) : bool :=
  match cls with
  | Full.arg_O (Full.mk_tuple (Some a) option_string (Some explicit_arg)) =>
      gathered_help (Full.gather a option_string explicit_arg)
  | Full.arg_O (Full.mk_tuple (Some a) _ None) => is_help a
  | _ => false
  end.

Section FullObservations.

Context `{P : Platform}.

(** The process exits from the parser, as [parser_exit] says, and with
    status 0 only when [helped] holds. *)
Definition exits_from_parser {T} (helped : bool) (w : World)
    (r : result T * World) : Prop :=
  exists code,
    fst r = Raise (SystemExit code)
    /\ rng (snd r) = rng w
    /\ files (snd r) = files w
    /\ ((code = 2
         /\ exists msg, log (snd r) = (log w ++ [UsageError msg])%list)
        \/ (code = 0
            /\ log (snd r) = (log w ++ [HelpMessage])%list
            /\ helped = true)).

End FullObservations.

(** ** The two parsers side by side

    What the parser in full makes of a class, a namespace and an outcome
    of the parser for options spelled in full. *)

Definition full_class (arg_string : string) (c : Argparse.arg_class)
  : Full.arg_class :=
  match c with
  | Argparse.arg_A => Full.arg_A
  | Argparse.arg_dashes => Full.arg_dashes
  | Argparse.arg_O a => Full.arg_O (Full.mk_tuple a arg_string None)
  end.

Definition full_item (item : string * Argparse.arg_class)
  : string * Full.arg_class :=
  (fst item, full_class (fst item) (snd item)).

Definition stored_namespace (ns : Namespace.t) : Full.Namespace.t :=
  Full.Namespace.mk (Full.Stored (Namespace.length ns))
    (Namespace.numbers ns) (Namespace.symbols ns)
    (option_map Full.Stored (Namespace.save ns)).

Section Outcomes.

Context `{P : Platform}.

Definition map_outcome {A B} (f : A -> B) (r : result A * World)
  : result B * World :=
  match r with
  | (Return a, w) => (Return (f a), w)
  | (Raise e, w) => (Raise e, w)
  end.

End Outcomes.

(** ** A platform to run the program on

    A small instance of [Platform] on which the definitions evaluate:
    [int] restricted to plain decimal literals with an optional sign, a
    random source that walks through the indices, and a file system that
    is a list of paths with their content, where a path without content
    is a directory and cannot be opened for appending. *)

Module Reference.

Local Open Scope string_scope.

Fixpoint decimal_value (acc : Z) (s : string) : option Z :=
  match s with
  | EmptyString => Some acc
  | String c rest =>
      if Argparse.is_digit c
      then decimal_value (10 * acc + (Z.of_nat (nat_of_ascii c) - 48)) rest
      else None
  end.

Definition int_decimal (s : string) : option Z :=
  match s with
  | EmptyString => None
  | String "-" (String _ _ as body) =>
      option_map Z.opp (decimal_value 0 body)
  | String "+" (String _ _ as body) => decimal_value 0 body
  | _ => decimal_value 0 s
  end.

Definition counter_below (n : nat) (s : nat) : nat * nat :=
  (s mod n, S s)%nat.

Lemma counter_below_lt (n s : nat) :
  (0 < n)%nat -> (fst (counter_below n s) < n)%nat.
Proof.
  intros Hn. unfold counter_below. simpl.
  apply Nat.mod_upper_bound. lia.
Qed.

Definition disk : Type := list (string * option string).

Fixpoint append (path data : string) (d : disk) : (string + unit) * disk :=
  match d with
  | [] => (inr tt, [(path, Some data)])
  | (p, content) :: rest =>
      if (p =? path)%string then
        match content with
        | Some old => (inr tt, (p, Some (old ++ data)) :: rest)
        | None => (inl ("[Errno 21] Is a directory: '" ++ path ++ "'"), d)
        end
      else
        let (r, rest') := append path data rest in (r, (p, content) :: rest')
  end.

#[export] Instance platform : Platform := {|
  py_int := int_decimal;
  rng_state := nat;
  randbelow := counter_below;
  randbelow_lt := counter_below_lt;
  fs_state := disk;
  fs_append := append
|}.

(** A world with random state [seed], the disk [d] and nothing written
    yet. *)
Definition world (seed : nat) (d : disk) : World := mkWorld seed d [].

(** An empty disk. *)
Definition w0 : World := world 0 [].

(** A directory where the file should be. *)
Definition w_dir : World := world 0 [("out", None)].

End Reference.

(** * Properties *)

(** ** Strings and membership *)

Section StringFacts.

Local Open Scope nat_scope.

Lemma mem_true_iff (c : ascii) (s : string) :
  PyString.mem c s = true <-> In c (list_ascii_of_string s).
Proof.
  unfold PyString.mem. rewrite existsb_exists. split.
  - intros [x [Hin Heq]]. apply Ascii.eqb_eq in Heq. now subst.
  - intros Hin. exists c. split; [assumption | apply Ascii.eqb_refl].
Qed.

Lemma mem_append (c : ascii) (s t : string) :
  PyString.mem c (s ++ t) = PyString.mem c s || PyString.mem c t.
Proof.
  unfold PyString.mem. induction s as [| a s IH]; simpl.
  - reflexivity.
  - rewrite IH. now rewrite orb_assoc.
Qed.

Lemma get_in (s : string) :
  forall i, i < String.length s ->
    exists c, String.get i s = Some c /\ In c (list_ascii_of_string s).
Proof.
  induction s as [| a s IH]; simpl; intros i Hi.
  - lia.
  - destruct i as [| i].
    + exists a. auto.
    + destruct (IH i) as [c [Hget Hin]]; [lia |].
      exists c. auto.
Qed.

Lemma eqb_empty_length (s : string) :
  (s =? "")%string = false <-> 0 < String.length s.
Proof.
  destruct s; simpl; split; intros; try lia; try discriminate; reflexivity.
Qed.

Lemma all_spec (p : ascii -> bool) (s : string) :
  CharClass.all p s = true <->
  forall c, In c (list_ascii_of_string s) -> p c = true.
Proof. unfold CharClass.all. apply forallb_forall. Qed.

End StringFacts.

(** Case analysis over the 256 characters. *)
Ltac each_ascii c :=
  destruct c as [[] [] [] [] [] [] [] []]; vm_compute; try reflexivity.

(** ** The character pool *)

Section Pool.

Lemma ascii_letters_class (c : ascii) :
  PyString.mem c PyString.ascii_letters = CharClass.is_letter c.
Proof. each_ascii c. Qed.

Lemma digits_class (c : ascii) :
  PyString.mem c PyString.digits = CharClass.is_digit c.
Proof. each_ascii c. Qed.

Lemma punctuation_class (c : ascii) :
  PyString.mem c PyString.punctuation = CharClass.is_punctuation c.
Proof. each_ascii c. Qed.

Lemma pool_concat (include_numbers include_symbols : bool) :
  build_character_pool include_numbers include_symbols =
  (PyString.ascii_letters
     ++ (if include_numbers then PyString.digits else "")
     ++ (if include_symbols then PyString.punctuation else ""))%string.
Proof. destruct include_numbers, include_symbols; reflexivity. Qed.

Lemma pool_length (include_numbers include_symbols : bool) :
  String.length (build_character_pool include_numbers include_symbols) =
  (52 + (if include_numbers then 10 else 0)
      + (if include_symbols then 32 else 0))%nat.
Proof. destruct include_numbers, include_symbols; reflexivity. Qed.

Lemma pool_guard (include_numbers include_symbols : bool) :
  (build_character_pool include_numbers include_symbols =? "")%string
  = false.
Proof. destruct include_numbers, include_symbols; reflexivity. Qed.

Lemma mem_pool (c : ascii) (include_numbers include_symbols : bool) :
  PyString.mem c (build_character_pool include_numbers include_symbols) =
  CharClass.is_letter c
  || (include_numbers && CharClass.is_digit c)
  || (include_symbols && CharClass.is_punctuation c).
Proof.
  rewrite pool_concat, !mem_append, ascii_letters_class.
  destruct include_numbers, include_symbols; simpl;
    rewrite ?digits_class, ?punctuation_class, ?orb_false_r;
    auto using orb_assoc.
Qed.

(** C4: the pool is the letters, then the digits when numbers are asked
    for, then the punctuation when symbols are asked for; the letters are
    the 52 upper- and lowercase ASCII letters, the digits the 10 ASCII
    digits, and the punctuation is one fixed string of ASCII punctuation
    characters. *)
Theorem build_character_pool_concatenation :
  forall include_numbers include_symbols : bool,
    build_character_pool include_numbers include_symbols =
    (PyString.ascii_letters
       ++ (if include_numbers then PyString.digits else "")
       ++ (if include_symbols then PyString.punctuation else ""))%string
    /\ String.length PyString.ascii_letters = 52%nat
    /\ NoDup (list_ascii_of_string PyString.ascii_letters)
    /\ (forall c, PyString.mem c PyString.ascii_letters
                  = CharClass.is_letter c)
    /\ String.length PyString.digits = 10%nat
    /\ NoDup (list_ascii_of_string PyString.digits)
    /\ (forall c, PyString.mem c PyString.digits = CharClass.is_digit c)
    /\ (forall c, PyString.mem c PyString.punctuation
                  = CharClass.is_punctuation c).
Proof.
  intros include_numbers include_symbols.
  split; [apply pool_concat |].
  split; [reflexivity |].
  split; [| split; [apply ascii_letters_class |]].
  - vm_compute. repeat (constructor; [simpl; intuition discriminate |]).
    constructor.
  - split; [reflexivity |].
    split; [| split; [apply digits_class | apply punctuation_class]].
    vm_compute. repeat (constructor; [simpl; intuition discriminate |]).
    constructor.
Qed.

(** C5: whatever the flags, the pool is not empty. *)
Theorem build_character_pool_nonempty :
  forall include_numbers include_symbols : bool,
    build_character_pool include_numbers include_symbols <> ""%string
    /\ (52 <= String.length
                (build_character_pool include_numbers include_symbols))%nat.
Proof.
  intros include_numbers include_symbols. split.
  - destruct include_numbers, include_symbols; discriminate.
  - rewrite pool_length. lia.
Qed.

(** C7: turning a flag on adds characters and removes none, the other
    flag being the same; with both flags off the pool holds letters
    only. *)
Theorem build_character_pool_strictly_monotone :
  (forall include_symbols : bool,
      (forall c, PyString.mem c (build_character_pool false include_symbols)
                 = true ->
                 PyString.mem c (build_character_pool true include_symbols)
                 = true)
      /\ exists c,
          PyString.mem c (build_character_pool true include_symbols) = true
          /\ PyString.mem c (build_character_pool false include_symbols)
             = false)
  /\ (forall include_numbers : bool,
      (forall c, PyString.mem c (build_character_pool include_numbers false)
                 = true ->
                 PyString.mem c (build_character_pool include_numbers true)
                 = true)
      /\ exists c,
          PyString.mem c (build_character_pool include_numbers true) = true
          /\ PyString.mem c (build_character_pool include_numbers false)
             = false)
  /\ (forall c, PyString.mem c (build_character_pool false false) = true <->
                CharClass.is_letter c = true).
Proof.
  split; [| split].
  - intros include_symbols. split.
    + intros c. rewrite !mem_pool. simpl.
      intros H. rewrite orb_false_r in H.
      apply orb_true_iff in H. destruct H as [H | H]; rewrite H;
        auto using orb_true_r.
    + exists "0"%char. destruct include_symbols; split; reflexivity.
  - intros include_numbers. split.
    + intros c. rewrite !mem_pool. simpl.
      rewrite orb_false_r. intros H. now rewrite H.
    + exists "!"%char. destruct include_numbers; split; reflexivity.
  - intros c. rewrite mem_pool. simpl. now rewrite !orb_false_r.
Qed.

End Pool.

(** ** The generator *)

Section Generator.

Context `{P : Platform}.

Lemma same_but_rng_refl (w : World) : same_but_rng w w.
Proof. split; reflexivity. Qed.

Lemma same_but_rng_trans (w1 w2 w3 : World) :
  same_but_rng w1 w2 -> same_but_rng w2 w3 -> same_but_rng w1 w3.
Proof. unfold same_but_rng. intros [H1 H2] [H3 H4]. split; congruence. Qed.

Lemma choice_returns (pool : string) (w : World) :
  (0 < String.length pool)%nat ->
  exists c w',
    choice pool w = (Return c, w')
    /\ same_but_rng w w'
    /\ In c (list_ascii_of_string pool).
Proof.
  intros Hlen. unfold choice.
  destruct (String.length pool) as [| n] eqn:Hn; [lia |].
  pose proof (randbelow_lt (S n) (rng w) Hlen) as Hlt.
  destruct (randbelow (S n) (rng w)) as [i s'] eqn:Hr. simpl in Hlt.
  destruct (get_in pool i) as [c [Hget Hin]]; [lia |].
  rewrite Hget. exists c. eexists. split; [reflexivity |].
  split; [split; reflexivity | assumption].
Qed.

Lemma join_choices_returns (pool : string) :
  (0 < String.length pool)%nat ->
  forall (n : nat) (w : World),
  exists pw w',
    join_choices n pool w = (Return pw, w')
    /\ same_but_rng w w'
    /\ String.length pw = n
    /\ forall c, In c (list_ascii_of_string pw) ->
                 In c (list_ascii_of_string pool).
Proof.
  intros Hlen n. induction n as [| n IH]; intros w.
  - exists ""%string, w. simpl.
    repeat split; auto. intros c [].
  - destruct (choice_returns pool w Hlen) as [c [w1 [Hc [Hw1 Hin]]]].
    destruct (IH w1) as [rest [w2 [Hrest [Hw2 [Hn Hall]]]]].
    exists (String c rest), w2. simpl. unfold bind at 1. rewrite Hc.
    unfold bind at 1. rewrite Hrest. unfold ret.
    split; [reflexivity |].
    split; [eapply same_but_rng_trans; eassumption |].
    split; [simpl; now rewrite Hn |].
    intros c' [Heq | Hin']; [now subst | auto].
Qed.

(** What [generate_password] does, for any length: it returns, the
    password has [range_len length] characters, all of the pool, and the
    world differs at most in the random source. *)
Lemma generate_password_returns
    (length : Z) (include_numbers include_symbols : bool) (w : World) :
  exists pw w',
    generate_password length include_numbers include_symbols w
    = (Return pw, w')
    /\ same_but_rng w w'
    /\ String.length pw = range_len length
    /\ forall c,
        In c (list_ascii_of_string pw) ->
        PyString.mem c
          (build_character_pool include_numbers include_symbols) = true.
Proof.
  unfold generate_password. rewrite pool_guard.
  destruct (join_choices_returns
              (build_character_pool include_numbers include_symbols))
    with (n := range_len length) (w := w)
    as [pw [w' [Hrun [Hw [Hn Hall]]]]].
  - apply eqb_empty_length, pool_guard.
  - exists pw, w'. repeat split; try assumption; try apply Hw.
    intros c Hc. apply mem_true_iff. auto.
Qed.

(** C1: for a length of at least 1 the call returns a password of
    exactly that many characters. *)
Theorem generate_password_length :
  forall (L : Z) (include_numbers include_symbols : bool) (w : World),
    1 <= L ->
    exists pw w',
      generate_password L include_numbers include_symbols w
      = (Return pw, w')
      /\ Z.of_nat (String.length pw) = L.
Proof.
  intros L include_numbers include_symbols w HL.
  destruct (generate_password_returns L include_numbers include_symbols w)
    as [pw [w' [Hrun [_ [Hn _]]]]].
  exists pw, w'. split; [assumption |].
  rewrite Hn. unfold range_len. lia.
Qed.

(** C2: for a length of at least 1 every character of the password is a
    character of the pool built from the same flags; with both flags
    off, none of them is a digit or a punctuation character. *)
Theorem generate_password_chars_in_pool :
  forall (L : Z) (include_numbers include_symbols : bool) (w : World),
    1 <= L ->
    exists pw w',
      generate_password L include_numbers include_symbols w
      = (Return pw, w')
      /\ (forall c,
            In c (list_ascii_of_string pw) ->
            PyString.mem c
              (build_character_pool include_numbers include_symbols)
            = true)
      /\ (include_numbers = false -> include_symbols = false ->
          forall c,
            In c (list_ascii_of_string pw) ->
            PyString.mem c PyString.digits = false
            /\ PyString.mem c PyString.punctuation = false).
Proof.
  intros L include_numbers include_symbols w _.
  destruct (generate_password_returns L include_numbers include_symbols w)
    as [pw [w' [Hrun [_ [_ Hall]]]]].
  exists pw, w'. split; [assumption |]. split; [assumption |].
  intros -> -> c Hc. specialize (Hall c Hc).
  rewrite mem_pool in Hall. simpl in Hall. rewrite !orb_false_r in Hall.
  rewrite digits_class, punctuation_class.
  revert Hall. clear. each_ascii c; intros; try discriminate; auto.
Qed.

Lemma generate_password_no_draw
    (L : Z) (include_numbers include_symbols : bool) (w : World) :
  L <= 0 ->
  generate_password L include_numbers include_symbols w
  = (Return ""%string, w).
Proof.
  intros HL. unfold generate_password. rewrite pool_guard.
  unfold range_len. replace (Z.to_nat L) with 0%nat by lia. reflexivity.
Qed.

Lemma positive_int_rejects (value : string) :
  py_int value = None \/ (exists v, py_int value = Some v /\ v < 1) ->
  exists msg, positive_int value = Raise (ArgumentTypeError msg).
Proof.
  unfold positive_int. intros [-> | [v [-> Hv]]].
  - eexists. reflexivity.
  - apply Z.ltb_lt in Hv. rewrite Hv. eexists. reflexivity.
Qed.

Lemma positive_int_accepts (value : string) (v : Z) :
  positive_int value = Return v <-> py_int value = Some v /\ 1 <= v.
Proof.
  unfold positive_int. destruct (py_int value) as [p |].
  - destruct (Z.ltb_spec p 1); split.
    + discriminate.
    + intros [[= ->] Hv]. lia.
    + intros [= ->]. split; [reflexivity | lia].
    + intros [[= ->] _]. reflexivity.
  - split; [discriminate | intros [[=] _]].
Qed.

(** C3, as the code has it: for a length below 1 [generate_password]
    raises nothing and returns the empty string, leaving the world as it
    was; the error for such a length is raised by [positive_int], the
    type function of the length option. *)
Theorem generate_password_below_one :
  forall (L : Z) (include_numbers include_symbols : bool) (w : World),
    L < 1 ->
    generate_password L include_numbers include_symbols w
    = (Return ""%string, w)
    /\ forall value,
        py_int value = Some L ->
        positive_int value
        = Raise (ArgumentTypeError "length must be >= 1").
Proof.
  intros L include_numbers include_symbols w HL. split.
  - apply generate_password_no_draw. lia.
  - intros value Hv. unfold positive_int. rewrite Hv.
    apply Z.ltb_lt in HL. now rewrite HL.
Qed.

(** C9: the guard on an empty pool is never taken, so
    [generate_password] never raises its [ValueError]; it raises nothing
    at all. *)
Theorem generate_password_pool_error_unreachable :
  forall (L : Z) (include_numbers include_symbols : bool) (w : World),
    (build_character_pool include_numbers include_symbols =? "")%string
    = false
    /\ fst (generate_password L include_numbers include_symbols w)
       <> Raise (ValueError "Character pool is empty")
    /\ forall e,
        fst (generate_password L include_numbers include_symbols w)
        <> Raise e.
Proof.
  intros L include_numbers include_symbols w.
  destruct (generate_password_returns L include_numbers include_symbols w)
    as [pw [w' [Hrun _]]].
  rewrite Hrun. simpl. split; [apply pool_guard |].
  split; [discriminate | intros e; discriminate].
Qed.

(** C10: for a length of 0 or less [generate_password] returns the empty
    string, raises nothing and draws nothing. *)
Theorem generate_password_nonpositive_length :
  forall (L : Z) (include_numbers include_symbols : bool) (w : World),
    L <= 0 ->
    generate_password L include_numbers include_symbols w
    = (Return ""%string, w).
Proof. intros. now apply generate_password_no_draw. Qed.

End Generator.

(** ** The command line and [main] *)

Section CommandLineFacts.

Context `{P : Platform}.

Import Argparse.

Lemma positive_int_raises (value : string) (e : exn) :
  positive_int value = Raise e -> exists msg, e = ArgumentTypeError msg.
Proof.
  unfold positive_int. destruct (py_int value) as [v |].
  - destruct (v <? 1); [| discriminate].
    intros [= <-]. eexists. reflexivity.
  - intros [= <-]. eexists. reflexivity.
Qed.


(** A namespace that comes out of the parser carries a length of at
    least 1, and parsing leaves the world as it found it. *)
Lemma consume_length_valid (n : nat) :
  forall items : list (string * arg_class),
    (List.length items <= n)%nat ->
    forall namespace extras w parsed w',
      1 <= Namespace.length namespace ->
      consume items namespace extras w = (Return parsed, w') ->
      1 <= Namespace.length (fst parsed) /\ w' = w.
Proof.
  induction n as [| n IH];
    intros items Hlen namespace extras w parsed w' Hns Hrun.
  { destruct items; [| simpl in Hlen; lia].
    cbn in Hrun. injection Hrun as <- <-. auto. }
  destruct items as [| [s cls] rest].
  { cbn in Hrun. injection Hrun as <- <-. auto. }
  simpl in Hlen.
  destruct cls as [| | [a |]]; cbn [consume] in Hrun;
    try (eapply IH; [| eassumption | eassumption]; lia).
  destruct a; cbn [nargs take_action] in Hrun.
  - (* help *) cbn in Hrun. discriminate.
  - (* length *)
    destruct rest as [| [q [| | b]] rest']; try (cbn in Hrun; discriminate).
    cbn [take_action] in Hrun. unfold get_length_value in Hrun.
    destruct (positive_int q) as [v | e] eqn:Hq.
    + apply positive_int_accepts in Hq. destruct Hq as [_ Hv].
      unfold bind, ret in Hrun.
      eapply IH; [| | eassumption]; [simpl in Hlen; lia | assumption].
    + apply positive_int_raises in Hq. destruct Hq as [msg ->].
      cbn in Hrun. discriminate.
  - (* numbers *)
    unfold bind, ret in Hrun.
    eapply IH; [| | eassumption]; [lia | assumption].
  - (* symbols *)
    unfold bind, ret in Hrun.
    eapply IH; [| | eassumption]; [lia | assumption].
  - (* save *)
    destruct rest as [| [q [| | b]] rest']; try (cbn in Hrun; discriminate).
    cbn [take_action] in Hrun. unfold bind, ret in Hrun.
    eapply IH; [| | eassumption]; [simpl in Hlen; lia | assumption].
Qed.

Lemma parse_args_length_valid
    (argv : list string) (w w1 : World) (args : Namespace.t) :
  parse_args argv w = (Return args, w1) ->
  1 <= Namespace.length args /\ w1 = w.
Proof.
  unfold parse_args, parse_known_args, bind. intros Hrun.
  destruct (consume (combine argv (classify argv)) defaults [] w)
    as [[parsed | e] w'] eqn:Hc; [| discriminate].
  apply consume_length_valid with (n := List.length (combine argv (classify argv)))
    in Hc; [| lia | unfold defaults, DEFAULT_LENGTH; simpl; lia].
  destruct Hc as [Hlen ->].
  unfold reject_extras in Hrun.
  destruct (snd parsed); [| cbn in Hrun; discriminate].
  cbn in Hrun. injection Hrun as <- <-. auto.
Qed.


End CommandLineFacts.

(** ** Runs on the reference platform *)

Section Runs.

Local Existing Instance Reference.platform.

Import Reference.

Lemma generate_password_length_witness :
  1 <= 3
  /\ exists pw w',
      generate_password 3 true false w0 = (Return pw, w')
      /\ Z.of_nat (String.length pw) = 3.
Proof.
  split; [lia |].
  apply (generate_password_length 3 true false w0). lia.
Defined.

Lemma generate_password_chars_in_pool_witness :
  1 <= 4
  /\ exists pw w',
      generate_password 4 false false w0 = (Return pw, w')
      /\ (forall c,
            In c (list_ascii_of_string pw) ->
            PyString.mem c (build_character_pool false false) = true)
      /\ (false = false -> false = false ->
          forall c,
            In c (list_ascii_of_string pw) ->
            PyString.mem c PyString.digits = false
            /\ PyString.mem c PyString.punctuation = false).
Proof.
  split; [lia |].
  apply (generate_password_chars_in_pool 4 false false w0). lia.
Defined.

(** Length 0 is below 1, and [generate_password] returns: it raises no
    input error. *)
Lemma generate_password_zero_returns :
  0 < 1
  /\ generate_password 0 true true w0 = (Return ""%string, w0)
  /\ ~ exists e w', generate_password 0 true true w0 = (Raise e, w').
Proof.
  assert (Hrun : generate_password 0 true true w0 = (Return ""%string, w0))
    by (apply generate_password_no_draw; lia).
  split; [lia |]. split; [exact Hrun |].
  intros [e [w' H]]. rewrite Hrun in H. discriminate.
Qed.

Lemma generate_password_below_one_witness :
  0 < 1
  /\ generate_password 0 false true w0 = (Return ""%string, w0)
  /\ (py_int "0" = Some 0 ->
      positive_int "0" = Raise (ArgumentTypeError "length must be >= 1")).
Proof.
  split; [lia |].
  destruct (generate_password_below_one 0 false true w0) as [Hgen Hint];
    [lia |].
  split; [exact Hgen | exact (Hint "0"%string)].
Defined.

Lemma generate_password_nonpositive_length_witness :
  -3 <= 0
  /\ generate_password (-3) true true w0 = (Return ""%string, w0).
Proof.
  split; [lia |].
  apply (generate_password_nonpositive_length (-3) true true w0). lia.
Defined.

(** The length argument 0 parses to an integer below 1, and the process
    exits with status 0: the help option before it has been served
    first. *)
Lemma help_before_invalid_length_exits_zero :
  py_int "0" = Some 0
  /\ 0 < 1
  /\ run ["-h"; "-l"; "0"]%string w0
     = (0, mkWorld (rng w0) (files w0) [HelpMessage])
  /\ ~ fst (run ["-h"; "-l"; "0"]%string w0) <> 0.
Proof.
  split; [reflexivity |]. split; [lia |].
  split; [reflexivity |].
  intros H. apply H. reflexivity.
Qed.


End Runs.

(** * Further properties *)

(** ** The pool, character by character *)

Section PoolCharacters.

Lemma distinct_NoDup (s : string) :
  distinct s = true -> NoDup (list_ascii_of_string s).
Proof.
  induction s as [| c s IH]; simpl; intros H.
  - constructor.
  - apply andb_true_iff in H. destruct H as [Hc Hs].
    constructor; [| auto].
    intros Hin. apply mem_true_iff in Hin. rewrite Hin in Hc. discriminate.
Qed.

(** X1: whatever the flags, no character occurs twice in the pool, and the
    pool has 52 characters, plus 10 with numbers, plus 32 with symbols. *)
Theorem build_character_pool_distinct :
  forall include_numbers include_symbols : bool,
    NoDup (list_ascii_of_string
             (build_character_pool include_numbers include_symbols))
    /\ String.length (build_character_pool include_numbers include_symbols)
       = (52 + (if include_numbers then 10 else 0)
             + (if include_symbols then 32 else 0))%nat.
Proof.
  intros include_numbers include_symbols. split.
  - apply distinct_NoDup.
    destruct include_numbers, include_symbols; reflexivity.
  - destruct include_numbers, include_symbols; reflexivity.
Qed.

(** X2: every character of a pool is printable and not blank (codes 33 to
    126), and the pool with both flags on is exactly the set of these 94
    characters. *)
Theorem build_character_pool_printable :
  (forall (include_numbers include_symbols : bool) (c : ascii),
      PyString.mem c (build_character_pool include_numbers include_symbols)
      = true ->
      printable c = true)
  /\ (forall c : ascii,
         PyString.mem c (build_character_pool true true) = printable c).
Proof.
  split.
  - intros include_numbers include_symbols c. rewrite mem_pool.
    destruct include_numbers, include_symbols; simpl;
      each_ascii c; intros; discriminate.
  - intros c. rewrite mem_pool. each_ascii c.
Qed.

End PoolCharacters.

(** ** The generator, draw by draw *)

Section GeneratorDraws.

Context `{P : Platform}.

Lemma choice_index (pool : string) (w : World) :
  (0 < String.length pool)%nat ->
  let (i, s') := randbelow (String.length pool) (rng w) in
  exists c,
    choice pool w = (Return c, mkWorld s' (files w) (log w))
    /\ String.get i pool = Some c
    /\ (i < String.length pool)%nat.
Proof.
  intros Hlen. unfold choice.
  destruct (String.length pool) as [| n] eqn:Hn; [lia |].
  pose proof (randbelow_lt (S n) (rng w) Hlen) as Hlt.
  destruct (randbelow (S n) (rng w)) as [i s']. simpl in Hlt.
  destruct (get_in pool i) as [c [Hget _]]; [lia |].
  rewrite Hget. exists c. auto.
Qed.

Lemma join_choices_indices (pool : string) :
  (0 < String.length pool)%nat ->
  forall (k : nat) (w : World),
    let (indices, s') := draw_indices k (String.length pool) (rng w) in
    exists pw,
      join_choices k pool w = (Return pw, mkWorld s' (files w) (log w))
      /\ map (fun i => String.get i pool) indices
         = map Some (list_ascii_of_string pw)
      /\ Forall (fun i => (i < String.length pool)%nat) indices.
Proof.
  intros Hlen k. induction k as [| k IH]; intros w.
  - simpl. exists ""%string. destruct w. auto.
  - simpl.
    pose proof (choice_index pool w Hlen) as Hc.
    destruct (randbelow (String.length pool) (rng w)) as [i s1].
    destruct Hc as [c [Hc [Hget Hi]]].
    specialize (IH (mkWorld s1 (files w) (log w))). simpl in IH.
    destruct (draw_indices k (String.length pool) s1) as [rest s2].
    destruct IH as [pw [Hrun [Hmap Hall]]].
    exists (String c pw). unfold bind at 1. rewrite Hc.
    unfold bind at 1. rewrite Hrun. unfold ret.
    split; [reflexivity |]. split.
    + simpl. now rewrite Hget, Hmap.
    + constructor; assumption.
Qed.

(** X3: for any length and flags, [generate_password] asks the random
    source for exactly [max(length, 0)] indices, each below the size of
    the pool, one after the other; the password is made of the pool's
    characters at these indices, in order, and nothing but the random
    source has changed. *)
Theorem generate_password_by_draws :
  forall (L : Z) (include_numbers include_symbols : bool) (w : World),
    let pool := build_character_pool include_numbers include_symbols in
    let (indices, s') :=
      draw_indices (Z.to_nat (Z.max L 0)) (String.length pool) (rng w) in
    exists pw,
      generate_password L include_numbers include_symbols w
      = (Return pw, mkWorld s' (files w) (log w))
      /\ map (fun i => String.get i pool) indices
         = map Some (list_ascii_of_string pw)
      /\ Forall (fun i => (i < String.length pool)%nat) indices
      /\ List.length indices = Z.to_nat (Z.max L 0).
Proof.
  intros L include_numbers include_symbols w pool.
  assert (Hlen : (0 < String.length pool)%nat)
    by (apply eqb_empty_length, pool_guard).
  pose proof (join_choices_indices pool Hlen (Z.to_nat (Z.max L 0)) w) as H.
  destruct (draw_indices (Z.to_nat (Z.max L 0)) (String.length pool) (rng w))
    as [indices s'] eqn:Hd.
  destruct H as [pw [Hrun [Hmap Hall]]].
  exists pw. unfold generate_password. fold pool.
  unfold pool at 1. rewrite pool_guard. unfold range_len.
  replace (Z.to_nat L) with (Z.to_nat (Z.max L 0)) by lia.
  repeat split; try assumption.
  apply (f_equal (@List.length _)) in Hmap. rewrite !length_map in Hmap.
  clear - Hd. revert indices s' w Hd.
  generalize (Z.to_nat (Z.max L 0)) as k.
  induction k as [| k IH]; intros indices s' w Hd; simpl in Hd.
  - now injection Hd as <- <-.
  - destruct (randbelow (String.length pool) (rng w)) as [i s1].
    destruct (draw_indices k (String.length pool) s1) as [rest s2] eqn:Hr.
    injection Hd as <- <-. simpl. f_equal.
    apply (IH rest s2 (mkWorld s1 (files w) (log w))). exact Hr.
Qed.

(** X4: a password never holds a blank, a newline or any other character
    outside the printable codes 33 to 126, whatever the length and the
    flags; so the line that is printed, and the line that is saved, is
    one line. *)
Theorem generate_password_printable :
  forall (L : Z) (include_numbers include_symbols : bool) (w : World),
  exists pw w',
    generate_password L include_numbers include_symbols w = (Return pw, w')
    /\ forall c,
        In c (list_ascii_of_string pw) ->
        printable c = true /\ c <> "010"%char /\ c <> " "%char.
Proof.
  intros L include_numbers include_symbols w.
  destruct (generate_password_returns L include_numbers include_symbols w)
    as [pw [w' [Hrun [_ [_ Hall]]]]].
  exists pw, w'. split; [assumption |].
  intros c Hc. specialize (Hall c Hc). rewrite mem_pool in Hall.
  assert (Hp : printable c = true).
  { revert Hall. clear.
    destruct include_numbers, include_symbols; simpl;
      each_ascii c; intros; discriminate. }
  split; [assumption |].
  split; intros ->; discriminate.
Qed.

End GeneratorDraws.

(** ** The parser on whole command lines *)

Section ParserOutcomes.

Context `{P : Platform}.

Import Argparse.

Lemma bind_ret {A B} (a : A) (k : A -> Py B) (w : World) :
  bind (ret a) k w = k a w.
Proof. reflexivity. Qed.

Lemma parser_exit_error {T} (msg : string) (w : World) :
  parser_exit w (@parser_error _ T msg w).
Proof.
  exists 2. cbn. repeat split; auto. left. split; [reflexivity |].
  now exists msg.
Qed.

Lemma parser_exit_help {T} (w : World) :
  parser_exit w ((emit HelpMessage ;;; @raise _ T (SystemExit 0)) w).
Proof. exists 0. cbn. repeat split; auto. Qed.

Lemma parser_exit_bind {T U} (w : World) (m : Py T) (k : T -> Py U) :
  parser_exit w (m w) -> parser_exit w (bind m k w).
Proof.
  intros [code [Hr H]]. exists code. unfold bind.
  destruct (m w) as [[t | e] w']; simpl in *; [discriminate |].
  injection Hr as ->. split; [reflexivity | assumption].
Qed.

(** One step of the loop on an option that takes a value: the next
    argument is converted, or the parser exits. *)
Lemma take_value_cases (a : action) (q : string) (namespace : Namespace.t)
    (w : World) :
  nargs a = 1%nat ->
  parser_exit w (take_action a [q] namespace w)
  \/ exists namespace',
      take_action a [q] namespace w = (Return namespace', w)
      /\ (1 <= Namespace.length namespace ->
          1 <= Namespace.length namespace').
Proof.
  destruct a; try discriminate; intros _; cbn [take_action].
  - unfold get_length_value.
    destruct (positive_int q) as [v | e] eqn:Hq.
    + right. eexists. split; [reflexivity |].
      intros _. apply positive_int_accepts in Hq. simpl. tauto.
    + left. apply positive_int_raises in Hq. destruct Hq as [msg ->].
      apply parser_exit_bind. apply parser_exit_error.
  - right. eexists. split; [reflexivity | auto].
Qed.

(** The loop either exits from the parser, or returns without having
    touched the world, with a valid length if it started from one and with
    the arguments it could not use added to those it was given. *)
Lemma consume_outcome (n : nat) :
  forall items : list (string * arg_class),
    (List.length items <= n)%nat ->
    forall (namespace : Namespace.t) (extras : list string) (w : World),
      parser_exit w (consume items namespace extras w)
      \/ exists namespace' more,
          consume items namespace extras w
          = (Return (namespace', (extras ++ more)%list), w)
          /\ (1 <= Namespace.length namespace ->
              1 <= Namespace.length namespace').
Proof.
  induction n as [| n IH]; intros items Hlen namespace extras w.
  { destruct items; [| simpl in Hlen; lia].
    right. exists namespace, []. rewrite app_nil_r. auto. }
  destruct items as [| [s cls] rest].
  { right. exists namespace, []. rewrite app_nil_r. auto. }
  simpl in Hlen.
  assert (Hskip :
    parser_exit w (consume rest namespace (extras ++ [s])%list w)
    \/ exists namespace' more,
        consume rest namespace (extras ++ [s])%list w
        = (Return (namespace', (extras ++ more)%list), w)
        /\ (1 <= Namespace.length namespace ->
            1 <= Namespace.length namespace')).
  { destruct (IH rest ltac:(lia) namespace (extras ++ [s])%list w)
      as [Hexit | [ns' [more [Hrun Hvalid]]]]; [now left | right].
    exists ns', (s :: more). rewrite Hrun. split; [| assumption].
    now rewrite <- app_assoc. }
  destruct cls as [| | [a |]]; cbn [consume]; try exact Hskip.
  clear Hskip.
  destruct (nargs a) as [| k] eqn:Hnargs.
  - (* an option without value *)
    destruct a; try discriminate; cbn [take_action].
    + left. apply parser_exit_bind, parser_exit_help.
    + rewrite bind_ret.
      destruct (IH rest ltac:(lia) (Namespace.set_numbers true namespace)
                  extras w)
        as [Hexit | [ns' [more [Hrun Hvalid]]]]; [now left | right].
      exists ns', more. split; [assumption | exact Hvalid].
    + rewrite bind_ret.
      destruct (IH rest ltac:(lia) (Namespace.set_symbols true namespace)
                  extras w)
        as [Hexit | [ns' [more [Hrun Hvalid]]]]; [now left | right].
      exists ns', more. split; [assumption | exact Hvalid].
  - (* an option with its value in the next argument *)
    assert (Hone : nargs a = 1%nat) by (destruct a; try discriminate; auto).
    destruct rest as [| [q [| | b]] rest'];
      try (left; apply parser_exit_error).
    destruct (take_value_cases a q namespace w Hone)
      as [Hexit | [ns1 [Hstep Hvalid1]]].
    + left. apply (parser_exit_bind w (take_action a [q] namespace)).
      exact Hexit.
    + unfold bind. rewrite Hstep. cbn beta iota.
      destruct (IH rest' ltac:(simpl in Hlen; lia) ns1 extras w)
        as [Hexit | [ns' [more [Hrun Hvalid]]]]; [now left | right].
      exists ns', more. split; [assumption | auto].
Qed.

Lemma reject_extras_outcome (namespace : Namespace.t)
    (extras : list string) (w : World) :
  match extras with
  | [] => reject_extras (namespace, extras) w = (Return namespace, w)
  | _ => parser_exit w (reject_extras (namespace, extras) w)
  end.
Proof.
  destruct extras; [reflexivity |]. apply parser_exit_error.
Qed.

(** [parse_args] either exits from the parser or returns, leaving the
    world as it was, a namespace whose length is at least 1. *)
Lemma parse_args_outcome (argv : list string) (w : World) :
  parser_exit w (parse_args argv w)
  \/ exists args,
      parse_args argv w = (Return args, w) /\ 1 <= Namespace.length args.
Proof.
  unfold parse_args, parse_known_args.
  destruct (consume_outcome _ (combine argv (classify argv)) (le_n _)
              defaults [] w)
    as [Hexit | [ns' [more [Hrun Hvalid]]]].
  - left.
    apply (parser_exit_bind w
             (consume (combine argv (classify argv)) defaults [])).
    exact Hexit.
  - unfold bind. rewrite Hrun. simpl.
    pose proof (reject_extras_outcome ns' more w) as Hr.
    destruct more; [right | now left].
    exists ns'. split; [assumption |].
    apply Hvalid. unfold defaults, DEFAULT_LENGTH. simpl. lia.
Qed.

End ParserOutcomes.

(** ** Rendered options *)

Section RenderedOptions.

Context `{P : Platform}.

Import Argparse.

Lemma not_dash_argument (v : string) :
  starts_with_dash v = false ->
  (v =? "--")%string = false /\ parse_optional v = None.
Proof.
  destruct v as [| c v']; [auto |].
  destruct (Ascii.eqb_spec c "-") as [-> | Hne]; [discriminate |].
  intros _. apply Ascii.eqb_neq in Hne. simpl. rewrite Hne. auto.
Qed.

Lemma classify_argument (v : string) (rest : list string) :
  starts_with_dash v = false ->
  classify (v :: rest) = arg_A :: classify rest.
Proof.
  intros Hv. apply not_dash_argument in Hv. destruct Hv as [Hd Hp].
  cbn [classify]. now rewrite Hd, Hp.
Qed.

(** The loop over the arguments of well-formed options folds
    [apply_option] over them and leaves nothing over. *)
Lemma consume_render (opts : list cli_option) :
  forallb well_formed opts = true ->
  forall (rest : list string) (namespace : Namespace.t)
         (extras : list string) (w : World),
    consume (combine (render opts ++ rest) (classify (render opts ++ rest)))
      namespace extras w
    = consume (combine rest (classify rest))
        (fold_left apply_option opts namespace) extras w.
Proof.
  induction opts as [| o opts IH]; intros Hwf rest namespace extras w.
  - reflexivity.
  - cbn [forallb] in Hwf. apply andb_true_iff in Hwf.
    destruct Hwf as [Ho Hopts].
    cbn [render flat_map fold_left]. rewrite <- app_assoc.
    change (flat_map render_option opts) with (render opts).
    destruct o as [long value | long | long | path];
      cbn [render_option app well_formed apply_option] in *.
    + apply andb_true_iff in Ho. destruct Ho as [Hdash Hint].
      apply negb_true_iff in Hdash.
      destruct (positive_int value) as [v | e] eqn:Hv; [| discriminate].
      assert (Hc : classify ((if long then "--length" else "-l")%string
                               :: value :: render opts ++ rest)
                   = arg_O (Some store_length)
                       :: classify (value :: render opts ++ rest))
        by (destruct long; reflexivity).
      rewrite Hc, (classify_argument value _ Hdash).
      cbn [combine consume nargs take_action].
      unfold get_length_value. rewrite Hv. unfold bind, ret.
      cbn beta iota. apply IH. assumption.
    + assert (Hc : classify ((if long then "--numbers" else "-n")%string
                               :: render opts ++ rest)
                   = arg_O (Some store_numbers)
                       :: classify (render opts ++ rest))
        by (destruct long; reflexivity).
      rewrite Hc. cbn [combine consume nargs take_action].
      rewrite bind_ret. apply IH. assumption.
    + assert (Hc : classify ((if long then "--symbols" else "-s")%string
                               :: render opts ++ rest)
                   = arg_O (Some store_symbols)
                       :: classify (render opts ++ rest))
        by (destruct long; reflexivity).
      rewrite Hc. cbn [combine consume nargs take_action].
      rewrite bind_ret. apply IH. assumption.
    + apply negb_true_iff in Ho.
      change (classify ("--save"%string :: path :: render opts ++ rest))
        with (arg_O (Some store_save)
                :: classify (path :: render opts ++ rest)).
      rewrite (classify_argument path _ Ho).
      cbn [combine consume nargs take_action].
      rewrite bind_ret. apply IH. assumption.
Qed.

Lemma parse_args_render_eq (opts : list cli_option) (w : World) :
  forallb well_formed opts = true ->
  parse_args (render opts) w = (Return (namespace_of opts), w).
Proof.
  intros Hwf. unfold parse_args, parse_known_args.
  pose proof (consume_render opts Hwf [] defaults [] w) as H.
  rewrite app_nil_r in H. unfold bind. rewrite H. reflexivity.
Qed.

Lemma render_plain (opts : list cli_option) :
  forallb well_formed opts = true -> plain (render opts) = true.
Proof.
  induction opts as [| o opts IH]; [reflexivity |].
  cbn [forallb]. intros H. apply andb_true_iff in H. destruct H as [Ho Hopts].
  unfold plain, render. cbn [flat_map]. rewrite forallb_app.
  apply andb_true_iff. split; [| now apply IH].
  destruct o as [long value | long | long | path];
    cbn [well_formed render_option forallb] in *.
  - apply andb_true_iff in Ho. destruct Ho as [Hdash _].
    apply negb_true_iff in Hdash.
    assert (Hv : plain_token value = true).
    { unfold plain_token. rewrite Hdash.
      destruct (option_string_actions value); reflexivity. }
    rewrite Hv. destruct long; reflexivity.
  - destruct long; reflexivity.
  - destruct long; reflexivity.
  - apply negb_true_iff in Ho.
    assert (Hv : plain_token path = true).
    { unfold plain_token. rewrite Ho.
      destruct (option_string_actions path); reflexivity. }
    rewrite Hv. reflexivity.
Qed.

End RenderedOptions.

(** ** [main] on whole command lines *)

Section MainOutcomes.

Context `{P : Platform}.

Import Argparse.

(** What [main] does once the arguments are parsed. *)
Lemma main_after_parse (argv : list string) (w : World)
    (args : Namespace.t) :
  parse_args argv w = (Return args, w) ->
  exists pw s',
    generate_password (Namespace.length args) (Namespace.numbers args)
      (Namespace.symbols args) w
    = (Return pw, mkWorld s' (files w) (log w))
    /\ String.length pw = range_len (Namespace.length args)
    /\ (forall c,
          In c (list_ascii_of_string pw) ->
          PyString.mem c
            (build_character_pool (Namespace.numbers args)
               (Namespace.symbols args)) = true)
    /\ match Namespace.save args with
       | Some (String _ _ as file_path) =>
           match fs_append file_path (pw ++ String "010" "") (files w) with
           | (inr _, fs') =>
               main argv w
               = (Return 0, mkWorld s' fs' (log w ++ [Stdout pw]))
           | (inl msg, fs') =>
               main argv w
               = (Return 1,
                  mkWorld s' fs'
                    (log w
                       ++ [Stdout pw;
                           Stderr ("Failed to save password to "
                                   ++ file_path ++ ": " ++ msg)]))
           end
       | _ =>
           main argv w
           = (Return 0, mkWorld s' (files w) (log w ++ [Stdout pw]))
       end.
Proof.
  intros Hparse.
  destruct (generate_password_returns (Namespace.length args)
              (Namespace.numbers args) (Namespace.symbols args) w)
    as [pw [w2 [Hgen [[Hfiles Hlog] [Hlen Hall]]]]].
  destruct w2 as [s' f l]. simpl in Hfiles, Hlog. subst f l.
  exists pw, s'. split; [assumption |].
  split; [assumption |]. split; [assumption |].
  assert (Hmain :
    main argv w
    = match Namespace.save args with
      | Some (String _ _ as file_path) =>
          try_except
            (append_password_to_file pw file_path ;;; ret 0)
            (fun error =>
               match error with
               | OSError msg =>
                   Some (emit (Stderr ("Failed to save password to "
                                       ++ file_path ++ ": " ++ msg)) ;;;
                         ret 1)
               | _ => None
               end)
      | _ => ret 0
      end (mkWorld s' (files w) (log w ++ [Stdout pw]))).
  { unfold main. unfold bind at 1. rewrite Hparse.
    unfold bind at 1. rewrite Hgen. reflexivity. }
  rewrite Hmain. clear Hmain.
  destruct (Namespace.save args) as [[| c path] |]; try reflexivity.
  unfold try_except, append_password_to_file, bind. cbn [files rng log].
  destruct (fs_append (String c path) (pw ++ String "010" "") (files w))
    as [[msg | []] fs'].
  - cbn. now rewrite <- app_assoc.
  - reflexivity.
Qed.

Lemma main_cases (argv : list string) (w : World) :
  parser_exit w (main argv w)
  \/ exists args pw code w',
      parse_args argv w = (Return args, w)
      /\ main argv w = (Return code, w')
      /\ 1 <= Namespace.length args
      /\ Z.of_nat (String.length pw) = Namespace.length args
      /\ (forall c,
            In c (list_ascii_of_string pw) ->
            PyString.mem c
              (build_character_pool (Namespace.numbers args)
                 (Namespace.symbols args)) = true)
      /\ ((code = 0 /\ log w' = (log w ++ [Stdout pw])%list)
          \/ (code = 1
              /\ exists path msg,
                  Namespace.save args = Some path
                  /\ path <> ""%string
                  /\ log w'
                     = (log w
                          ++ [Stdout pw;
                              Stderr ("Failed to save password to "
                                      ++ path ++ ": " ++ msg)])%list))
      /\ (Namespace.save args = None -> files w' = files w).
Proof.
  destruct (parse_args_outcome argv w) as [Hexit | [args [Hparse Hvalid]]].
  - left. unfold main.
    apply (parser_exit_bind w (parse_args argv)). exact Hexit.
  - right.
    destruct (main_after_parse argv w args Hparse)
      as [pw [s' [Hgen [Hlen [Hall Hmain]]]]].
    assert (Hsize : Z.of_nat (String.length pw) = Namespace.length args)
      by (rewrite Hlen; unfold range_len; lia).
    destruct (Namespace.save args) as [[| c path] |] eqn:Hsave.
    + eexists args, pw, 0, _. repeat (split; [eassumption |]).
      split; [left; split; reflexivity | intros Hn; first [reflexivity | rewrite Hsave in Hn; discriminate]].
    + destruct (fs_append (String c path) (pw ++ String "010" "") (files w))
        as [[msg | u] fs'].
      * eexists args, pw, 1, _. repeat (split; [eassumption |]).
        split; [| intros Hn; first [reflexivity | rewrite Hsave in Hn; discriminate]].
        right. split; [reflexivity |].
        exists (String c path), msg.
        split; [exact Hsave |]. split; [discriminate | reflexivity].
      * eexists args, pw, 0, _. repeat (split; [eassumption |]).
        split; [left; split; reflexivity | intros Hn; first [reflexivity | rewrite Hsave in Hn; discriminate]].
    + eexists args, pw, 0, _. repeat (split; [eassumption |]).
      split; [left; split; reflexivity | intros Hn; first [reflexivity | rewrite Hsave in Hn; discriminate]].
Qed.

(** X5: on a command line spelled in full, [parse_args] either exits from
    the parser (status 0 after help, 2 after a usage error, one message
    written), or returns a namespace whose length is at least 1 and leaves
    the world as it was: nothing drawn, written or saved. *)
Theorem parse_args_valid_or_exit :
  forall (argv : list string) (w : World),
    plain argv = true ->
    parser_exit w (parse_args argv w)
    \/ exists args,
        parse_args argv w = (Return args, w)
        /\ 1 <= Namespace.length args.
Proof. intros argv w _. apply parse_args_outcome. Qed.

(** X6: well-formed options, in any number and order, are parsed to the
    namespace obtained by applying them one after the other to the
    defaults (length 12, no numbers, no symbols, no file): flags add up,
    and of several lengths or paths the last one counts. *)
Theorem parse_args_render :
  forall (opts : list cli_option) (w : World),
    forallb well_formed opts = true ->
    parse_args (render opts) w = (Return (namespace_of opts), w)
    /\ namespace_of [] = Namespace.mk 12 false false None
    /\ forall o, namespace_of (opts ++ [o])
                 = apply_option (namespace_of opts) o.
Proof.
  intros opts w Hwf. split; [now apply parse_args_render_eq |].
  split; [reflexivity |].
  intros o. unfold namespace_of. now rewrite fold_left_app.
Qed.

(** X7: on a command line spelled in full, [main] ends in one of two
    ways.  Either the process exits from the parser and no password is
    generated; or [main] returns 0 or 1 after printing exactly one
    password, whose length is the parsed length (at least 1) and whose
    characters are in the pool of the parsed flags.  It returns 1 only
    with a report on standard error after the password, for a non-empty
    path; without [--save] the files are untouched.  No other exception
    leaves [main]. *)
Theorem main_outcomes :
  forall (argv : list string) (w : World),
    plain argv = true ->
    parser_exit w (main argv w)
    \/ exists args pw code w',
        parse_args argv w = (Return args, w)
        /\ main argv w = (Return code, w')
        /\ 1 <= Namespace.length args
        /\ Z.of_nat (String.length pw) = Namespace.length args
        /\ (forall c,
              In c (list_ascii_of_string pw) ->
              PyString.mem c
                (build_character_pool (Namespace.numbers args)
                   (Namespace.symbols args)) = true)
        /\ ((code = 0 /\ log w' = (log w ++ [Stdout pw])%list)
            \/ (code = 1
                /\ exists path msg,
                    Namespace.save args = Some path
                    /\ path <> ""%string
                    /\ log w'
                       = (log w
                            ++ [Stdout pw;
                                Stderr ("Failed to save password to "
                                        ++ path ++ ": " ++ msg)])%list))
        /\ (Namespace.save args = None -> files w' = files w).
Proof. intros argv w _. apply main_cases. Qed.


End MainOutcomes.

(** ** An option left without its value *)

Section MissingValue.

Context `{P : Platform}.

Import Argparse.

Variable opt : string.
Hypothesis Hopt :
  opt = "-l"%string \/ opt = "--length"%string \/ opt = "--save"%string.




End MissingValue.

Section MoreOutcomes.

Context `{P : Platform}.


(** X10: when the last path given to [--save] is the empty string,
    nothing is saved: [main] prints the password, leaves the files as
    they were and returns 0, as it does without [--save]. *)
Theorem empty_save_path_ignored :
  forall (opts : list cli_option) (w : World),
    forallb well_formed opts = true ->
    exists pw s',
      generate_password (Namespace.length (namespace_of opts))
        (Namespace.numbers (namespace_of opts))
        (Namespace.symbols (namespace_of opts)) w
      = (Return pw, mkWorld s' (files w) (log w))
      /\ main (render (opts ++ [give_save ""])) w
         = (Return 0, mkWorld s' (files w) (log w ++ [Stdout pw])).
Proof.
  intros opts w Hwf.
  assert (Hwf' : forallb well_formed (opts ++ [give_save ""]) = true)
    by (rewrite forallb_app, Hwf; reflexivity).
  pose proof (parse_args_render_eq _ w Hwf') as Hparse.
  destruct (main_after_parse _ w _ Hparse)
    as [pw [s' [Hgen [_ [_ Hmain]]]]].
  unfold namespace_of in Hgen, Hmain. rewrite fold_left_app in Hgen, Hmain.
  exists pw, s'. split; [exact Hgen | exact Hmain].
Qed.

(** X11: a command line of well-formed options always yields a password:
    [main] does not exit from the parser, prints one password whose
    length is the last length given (12 when none is) and whose characters
    are in the pool of the flags given, and returns 0 or 1. *)
Theorem main_on_rendered_options :
  forall (opts : list cli_option) (w : World),
    forallb well_formed opts = true ->
    exists pw code w',
      main (render opts) w = (Return code, w')
      /\ (code = 0 \/ code = 1)
      /\ Z.of_nat (String.length pw) = Namespace.length (namespace_of opts)
      /\ 1 <= Namespace.length (namespace_of opts)
      /\ (forall c,
            In c (list_ascii_of_string pw) ->
            PyString.mem c
              (build_character_pool (Namespace.numbers (namespace_of opts))
                 (Namespace.symbols (namespace_of opts))) = true)
      /\ exists tail, log w' = (log w ++ Stdout pw :: tail)%list.
Proof.
  intros opts w Hwf.
  pose proof (parse_args_render_eq opts w Hwf) as Hparse.
  destruct (main_cases (render opts) w)
    as [[code [Hr _]] | [args [pw [code [w' H]]]]].
  - unfold main, bind in Hr. rewrite Hparse in Hr.
    destruct (generate_password_returns
                (Namespace.length (namespace_of opts))
                (Namespace.numbers (namespace_of opts))
                (Namespace.symbols (namespace_of opts)) w)
      as [pw [w2 [Hgen _]]].
    rewrite Hgen in Hr. cbn [emit] in Hr.
    destruct (Namespace.save (namespace_of opts)) as [[| c path] |];
      try discriminate.
    unfold try_except, append_password_to_file in Hr. cbn in Hr.
    destruct (fs_append (String c path) (pw ++ String "010" "") (files w2))
      as [[msg | []] fs']; discriminate.
  - destruct H as [Hp [Hmain [Hvalid [Hsize [Hall [Hlog _]]]]]].
    rewrite Hparse in Hp. injection Hp as <-.
    exists pw, code, w'. split; [exact Hmain |].
    split; [destruct Hlog as [[-> _] | [-> _]]; auto |].
    split; [exact Hsize |]. split; [exact Hvalid |].
    split; [exact Hall |].
    destruct Hlog as [[_ ->] | [_ [path [msg [_ [_ ->]]]]]];
      eexists; reflexivity.
Qed.

End MoreOutcomes.

(** ** More runs on the reference platform *)

Section MoreRuns.

Local Existing Instance Reference.platform.

Import Reference.

Lemma parse_args_valid_or_exit_witness :
  plain ["-n"; "-l"; "8"]%string = true
  /\ (parser_exit w0 (parse_args ["-n"; "-l"; "8"]%string w0)
      \/ exists args,
          parse_args ["-n"; "-l"; "8"]%string w0 = (Return args, w0)
          /\ 1 <= Namespace.length args).
Proof.
  split; [reflexivity |].
  apply (parse_args_valid_or_exit ["-n"; "-l"; "8"]%string w0). reflexivity.
Defined.

Lemma parse_args_render_witness :
  forallb well_formed
    [give_length false "20"; give_numbers true; give_length true "8"] = true
  /\ parse_args
       (render [give_length false "20"; give_numbers true;
                give_length true "8"]) w0
     = (Return
          (namespace_of [give_length false "20"; give_numbers true;
                         give_length true "8"]), w0)
  /\ namespace_of [give_length false "20"; give_numbers true;
                   give_length true "8"]
     = Namespace.mk 8 true false None.
Proof.
  split; [reflexivity |].
  destruct (parse_args_render
              [give_length false "20"; give_numbers true;
               give_length true "8"] w0 eq_refl) as [Hparse _].
  split; [exact Hparse | reflexivity].
Defined.

Lemma main_outcomes_witness :
  plain ["--save"; "out"; "-s"]%string = true
  /\ (parser_exit w_dir (main ["--save"; "out"; "-s"]%string w_dir)
      \/ exists args pw code w',
          parse_args ["--save"; "out"; "-s"]%string w_dir
          = (Return args, w_dir)
          /\ main ["--save"; "out"; "-s"]%string w_dir = (Return code, w')
          /\ 1 <= Namespace.length args
          /\ Z.of_nat (String.length pw) = Namespace.length args
          /\ (forall c,
                In c (list_ascii_of_string pw) ->
                PyString.mem c
                  (build_character_pool (Namespace.numbers args)
                     (Namespace.symbols args)) = true)
          /\ ((code = 0 /\ log w' = (log w_dir ++ [Stdout pw])%list)
              \/ (code = 1
                  /\ exists path msg,
                      Namespace.save args = Some path
                      /\ path <> ""%string
                      /\ log w'
                         = (log w_dir
                              ++ [Stdout pw;
                                  Stderr ("Failed to save password to "
                                          ++ path ++ ": " ++ msg)])%list))
          /\ (Namespace.save args = None -> files w' = files w_dir)).
Proof.
  split; [reflexivity |].
  apply (main_outcomes ["--save"; "out"; "-s"]%string w_dir). reflexivity.
Defined.



Lemma empty_save_path_ignored_witness :
  forallb well_formed [give_save "out"; give_length false "3"] = true
  /\ exists pw s',
      generate_password
        (Namespace.length
           (namespace_of [give_save "out"; give_length false "3"]))
        (Namespace.numbers
           (namespace_of [give_save "out"; give_length false "3"]))
        (Namespace.symbols
           (namespace_of [give_save "out"; give_length false "3"])) w_dir
      = (Return pw, mkWorld s' (files w_dir) (log w_dir))
      /\ main (render ([give_save "out"; give_length false "3"]
                         ++ [give_save ""])) w_dir
         = (Return 0, mkWorld s' (files w_dir) (log w_dir ++ [Stdout pw])).
Proof.
  split; [reflexivity |].
  apply (empty_save_path_ignored
           [give_save "out"; give_length false "3"] w_dir).
  reflexivity.
Defined.

Lemma main_on_rendered_options_witness :
  forallb well_formed [give_symbols false; give_length true "5"] = true
  /\ exists pw code w',
      main (render [give_symbols false; give_length true "5"]) w0
      = (Return code, w')
      /\ (code = 0 \/ code = 1)
      /\ Z.of_nat (String.length pw)
         = Namespace.length
             (namespace_of [give_symbols false; give_length true "5"])
      /\ 1 <= Namespace.length
                (namespace_of [give_symbols false; give_length true "5"])
      /\ (forall c,
            In c (list_ascii_of_string pw) ->
            PyString.mem c
              (build_character_pool
                 (Namespace.numbers
                    (namespace_of
                       [give_symbols false; give_length true "5"]))
                 (Namespace.symbols
                    (namespace_of
                       [give_symbols false; give_length true "5"])))
            = true)
      /\ exists tail, log w' = (log w0 ++ Stdout pw :: tail)%list.
Proof.
  split; [reflexivity |].
  apply (main_on_rendered_options
           [give_symbols false; give_length true "5"] w0).
  reflexivity.
Defined.

End MoreRuns.

(** * The parser in full *)

(** ** The parser with every spelling: one argument at a time *)

Section FullParserFacts.

Context `{P : Platform}.

Import Argparse.

Lemma exits_error {T} (helped : bool) (msg : string) (w : World) :
  exits_from_parser helped w (@parser_error _ T msg w).
Proof.
  exists 2. cbn. repeat split; auto. left. split; [reflexivity |].
  now exists msg.
Qed.

Lemma exits_help {T} (w : World) :
  exits_from_parser true w
    ((emit HelpMessage ;;; @raise _ T (SystemExit 0)) w).
Proof. exists 0. cbn. repeat split; auto. Qed.

Lemma exits_bind {T U} (helped : bool) (w : World)
    (m : Py T) (k : T -> Py U) :
  exits_from_parser helped w (m w) ->
  exits_from_parser helped w (bind m k w).
Proof.
  intros [code [Hr H]]. exists code. unfold bind.
  destruct (m w) as [[t | e] w']; simpl in *; [discriminate |].
  injection Hr as ->. split; [reflexivity | assumption].
Qed.

Lemma exits_weaken {T} (h1 h2 : bool) (w : World) (r : result T * World) :
  (h1 = true -> h2 = true) ->
  exits_from_parser h1 w r -> exits_from_parser h2 w r.
Proof.
  intros Hh [code [Hr [Hrng [Hfs H]]]]. exists code.
  repeat split; auto.
  destruct H as [H | [H0 [Hlog Hhelp]]]; [now left | right]. auto.
Qed.

(** An action either exits from the parser, with status 0 only if it is
    help, or returns without touching the world. *)
Lemma full_take_action_cases (a : action) (args : list string)
    (namespace : Full.Namespace.t) (w : World) :
  exits_from_parser (is_help a) w (full_take_action a args namespace w)
  \/ exists namespace',
      full_take_action a args namespace w = (Return namespace', w).
Proof.
  destruct a; cbn [full_take_action is_help].
  - left. apply exits_help.
  - unfold get_values.
    destruct (remove_dashes args) as [| v [| v' rest]];
      try (right; eexists; reflexivity).
    unfold get_length_value.
    destruct (positive_int v) as [n | e] eqn:Hv.
    + right. eexists. reflexivity.
    + left. apply positive_int_raises in Hv. destruct Hv as [msg ->].
      do 2 apply exits_bind. apply exits_error.
  - right. eexists. reflexivity.
  - right. eexists. reflexivity.
  - unfold get_values.
    destruct (remove_dashes args) as [| v [| v' rest]];
      right; eexists; reflexivity.
Qed.

Lemma take_actions_cases (tuples : list (action * list string)) :
  forall (namespace : Full.Namespace.t) (w : World),
    exits_from_parser (tuples_help tuples) w
      (take_actions tuples namespace w)
    \/ exists namespace',
        take_actions tuples namespace w = (Return namespace', w).
Proof.
  induction tuples as [| [a args] tuples IH]; intros namespace w.
  - right. eexists. reflexivity.
  - cbn [take_actions tuples_help existsb fst].
    destruct (full_take_action_cases a args namespace w)
      as [Hexit | [ns1 Hstep]].
    + left.
      apply (exits_bind _ w (full_take_action a args namespace)).
      eapply exits_weaken; [| exact Hexit].
      intros ->. reflexivity.
    + unfold bind. rewrite Hstep.
      destruct (IH ns1 w) as [Hexit | [ns' Hrun]]; [left | right].
      * eapply exits_weaken; [| exact Hexit].
        intros H. unfold tuples_help in H. rewrite H. apply orb_true_r.
      * exists ns'. exact Hrun.
Qed.

Lemma asks_help_item (s : string) :
  asks_help s = item_help (Full.parse_optional s).
Proof. reflexivity. Qed.

(** One turn of the loop: the parser exits, or goes on with the next
    argument, or goes on after the next argument, which it has taken for
    the value of an option. *)
Lemma full_consume_step (s : string) (cls : Full.arg_class)
    (rest : list (string * Full.arg_class))
    (namespace : Full.Namespace.t) (extras : list string) (w : World) :
  exits_from_parser (item_help cls) w
    (full_consume ((s, cls) :: rest) namespace extras w)
  \/ (exists namespace' extras',
        full_consume ((s, cls) :: rest) namespace extras w
        = full_consume rest namespace' extras' w)
  \/ (exists v rest' namespace',
        rest = (v, Full.arg_A) :: rest'
        /\ full_consume ((s, cls) :: rest) namespace extras w
           = full_consume rest' namespace' extras w).
Proof.
  assert (Hmore :
    forall tuples last,
      tuples_help tuples || is_help last = true
      \/ tuples_help tuples || is_help last = false ->
      exits_from_parser (tuples_help tuples || is_help last) w
        (match nargs last with
         | 0%nat =>
             namespace' <-
               take_actions (tuples ++ [(last, [])])%list namespace ;;
             full_consume rest namespace' extras
         | _ =>
             match rest with
             | (value, Full.arg_A) :: rest' =>
                 namespace' <-
                   take_actions (tuples ++ [(last, [value])])%list
                     namespace ;;
                 full_consume rest' namespace' extras
             | _ => argument_error last "expected one argument"
             end
         end w)
      \/ (exists namespace' extras',
            match nargs last with
            | 0%nat =>
                namespace' <-
                  take_actions (tuples ++ [(last, [])])%list namespace ;;
                full_consume rest namespace' extras
            | _ =>
                match rest with
                | (value, Full.arg_A) :: rest' =>
                    namespace' <-
                      take_actions (tuples ++ [(last, [value])])%list
                        namespace ;;
                    full_consume rest' namespace' extras
                | _ => argument_error last "expected one argument"
                end
            end w
            = full_consume rest namespace' extras' w)
      \/ (exists v rest' namespace',
            rest = (v, Full.arg_A) :: rest'
            /\ match nargs last with
               | 0%nat =>
                   namespace' <-
                     take_actions (tuples ++ [(last, [])])%list namespace ;;
                   full_consume rest namespace' extras
               | _ =>
                   match rest with
                   | (value, Full.arg_A) :: rest' =>
                       namespace' <-
                         take_actions (tuples ++ [(last, [value])])%list
                           namespace ;;
                       full_consume rest' namespace' extras
                   | _ => argument_error last "expected one argument"
                   end
               end w
               = full_consume rest' namespace' extras w)).
  { intros tuples last _.
    assert (Hhelp : forall args,
              tuples_help (tuples ++ [(last, args)])
              = tuples_help tuples || is_help last).
    { intros args. unfold tuples_help. rewrite existsb_app. simpl.
      now rewrite orb_false_r. }
    destruct (nargs last) as [| k].
    - destruct (take_actions_cases (tuples ++ [(last, [])]) namespace w)
        as [Hexit | [ns' Hrun]].
      + left. rewrite Hhelp in Hexit.
        apply (exits_bind _ w
                 (take_actions (tuples ++ [(last, [])]) namespace)).
        exact Hexit.
      + right. left. exists ns', extras. unfold bind. now rewrite Hrun.
    - destruct rest as [| [v [| | t | m]] rest'];
        try (left; apply exits_error).
      destruct (take_actions_cases (tuples ++ [(last, [v])]) namespace w)
        as [Hexit | [ns' Hrun]].
      + left. rewrite Hhelp in Hexit.
        apply (exits_bind _ w
                 (take_actions (tuples ++ [(last, [v])]) namespace)).
        exact Hexit.
      + right. right. exists v, rest', ns'. split; [reflexivity |].
        unfold bind. now rewrite Hrun. }
  destruct cls as [| | [[a |] option_string [explicit_arg |]] | msg];
    try (right; left; eexists; eexists; reflexivity);
    try (left; apply exits_error).
  - (* an option with an explicit argument *)
    cbn [full_consume item_help].
    destruct (Full.gather a option_string explicit_arg)
      as [a' msg | tuples | tuples last]; cbn [gathered_help].
    + left. apply exits_error.
    + destruct (take_actions_cases tuples namespace w)
        as [Hexit | [ns' Hrun]].
      * left. apply (exits_bind _ w (take_actions tuples namespace)).
        exact Hexit.
      * right. left. exists ns', extras. unfold bind. now rewrite Hrun.
    + apply Hmore. destruct (tuples_help tuples || is_help last); auto.
  - (* an option without explicit argument *)
    cbn [full_consume item_help].
    apply (Hmore [] a). destruct (tuples_help [] || is_help a); auto.
Qed.

Lemma full_classify_cons (s : string) (rest : list string) :
  (s =? "--")%string = false ->
  Full.classify (s :: rest) = Full.parse_optional s :: Full.classify rest.
Proof. intros H. cbn [Full.classify]. now rewrite H. Qed.

Lemma full_consume_arguments (rest : list string) :
  forall namespace extras w,
    full_consume (combine rest (map (fun _ => Full.arg_A) rest))
      namespace extras w
    = (Return (namespace, (extras ++ rest)%list), w).
Proof.
  induction rest as [| s rest IH]; intros namespace extras w; simpl.
  - now rewrite app_nil_r.
  - rewrite IH. now rewrite <- app_assoc.
Qed.

Lemma full_reject_extras_exits (helped : bool)
    (namespace : Full.Namespace.t) (extras : list string) (w : World) :
  extras <> [] ->
  exits_from_parser helped w (full_reject_extras (namespace, extras) w).
Proof.
  intros Hne. unfold full_reject_extras. simpl.
  destruct extras as [| x xs]; [contradiction |]. apply exits_error.
Qed.

(** The loop before a group of arguments [tokens] that makes the parser
    exit when it is reached, and whose first argument is not taken for a
    value: whatever comes before, the parser exits. *)
Section Reaching.

Variables (tokens post : list string).

Hypothesis Hreach :
  forall namespace extras w,
    exits_from_parser false w
      (bind
         (full_consume
            (combine (tokens ++ post) (Full.classify (tokens ++ post)))
            namespace extras)
         full_reject_extras w).

Hypothesis Hfirst :
  forall v rest',
    combine (tokens ++ post) (Full.classify (tokens ++ post))
    <> (v, Full.arg_A) :: rest'.

Lemma full_consume_reaches (n : nat) :
  forall pre : list string,
    (List.length pre <= n)%nat ->
    forall namespace extras w,
      exits_from_parser (existsb asks_help pre) w
        (bind
           (full_consume
              (combine (pre ++ tokens ++ post)
                 (Full.classify (pre ++ tokens ++ post)))
              namespace extras)
           full_reject_extras w).
Proof.
  induction n as [| n IH]; intros pre Hlen namespace extras w.
  { destruct pre; [| simpl in Hlen; lia].
    eapply exits_weaken; [| apply Hreach]. discriminate. }
  destruct pre as [| p pre].
  { eapply exits_weaken; [| apply Hreach]. discriminate. }
  simpl in Hlen. rewrite <- app_comm_cons.
  destruct (String.eqb_spec p "--") as [-> | Hp].
  { (* the separator: everything is left over *)
    cbn [Full.classify String.eqb Ascii.eqb Bool.eqb combine full_consume].
    unfold bind at 1. rewrite full_consume_arguments.
    apply full_reject_extras_exits.
    intros H. apply app_eq_nil in H. destruct H as [H _].
    apply app_eq_nil in H. destruct H as [_ H]. discriminate. }
  apply String.eqb_neq in Hp.
  rewrite (full_classify_cons p _ Hp). cbn [combine].
  set (rest := combine (pre ++ tokens ++ post)
                 (Full.classify (pre ++ tokens ++ post))).
  destruct (full_consume_step p (Full.parse_optional p) rest
              namespace extras w)
    as [Hexit | [[ns' [extras' Heq]] | [v [rest' [ns' [Hrest Heq]]]]]].
  - (* the parser exits on this argument *)
    apply (exits_bind _ w
             (full_consume ((p, Full.parse_optional p) :: rest)
                namespace extras)).
    eapply exits_weaken; [| exact Hexit].
    intros H. cbn [existsb]. rewrite asks_help_item, H. reflexivity.
  - (* it goes on with the next argument *)
    pose proof (IH pre ltac:(lia) ns' extras' w) as H.
    fold rest in H. unfold bind in H |- *. rewrite Heq.
    eapply exits_weaken; [| exact H].
    intros Hh. cbn [existsb]. rewrite Hh. apply orb_true_r.
  - (* it has taken the next argument for a value *)
    destruct pre as [| q pre].
    { exfalso. apply (Hfirst v rest'). exact Hrest. }
    unfold rest in Hrest. rewrite <- app_comm_cons in Hrest.
    cbn [Full.classify] in Hrest.
    destruct (q =? "--")%string; [discriminate |].
    cbn [combine] in Hrest. injection Hrest as _ _ Hrest'.
    pose proof (IH pre ltac:(simpl in Hlen; lia) ns' extras w) as H.
    rewrite Hrest' in H. unfold bind in H |- *. rewrite Heq.
    eapply exits_weaken; [| exact H].
    intros Hh. cbn [existsb]. rewrite Hh. rewrite !orb_true_r. reflexivity.
Qed.

End Reaching.

End FullParserFacts.

(** ** A length argument in all its spellings *)

Section FullLength.

Context `{P : Platform}.

Import Argparse.

Lemma take_actions_flags (tuples : list (action * list string)) :
  only_flags tuples = true ->
  forall (namespace : Full.Namespace.t) (w : World),
  exists namespace', take_actions tuples namespace w = (Return namespace', w).
Proof.
  induction tuples as [| [a args] tuples IH]; intros Hflags namespace w.
  - eexists. reflexivity.
  - cbn [only_flags forallb fst] in Hflags.
    apply andb_true_iff in Hflags. destruct Hflags as [Ha Hrest].
    cbn [take_actions].
    destruct a; try discriminate; cbn [full_take_action];
      rewrite bind_ret; apply IH; exact Hrest.
Qed.

Section BadValue.

Variable value : string.
Hypothesis Hbad :
  exists msg, positive_int value = Raise (ArgumentTypeError msg).

Lemma take_length_bad (namespace : Full.Namespace.t) (w : World) :
  (value =? "--")%string = false ->
  exits_from_parser false w
    (full_take_action store_length [value] namespace w).
Proof.
  intros Hv. cbn [full_take_action]. unfold get_values.
  cbn [remove_dashes]. rewrite Hv.
  unfold get_length_value. destruct Hbad as [msg ->].
  do 2 apply exits_bind. apply exits_error.
Qed.

Lemma take_flags_then_length (tuples : list (action * list string)) :
  only_flags tuples = true ->
  (value =? "--")%string = false ->
  forall (namespace : Full.Namespace.t) (w : World),
    exits_from_parser false w
      (take_actions (tuples ++ [(store_length, [value])]) namespace w).
Proof.
  induction tuples as [| [a args] tuples IH]; intros Hflags Hv namespace w.
  - cbn [app take_actions].
    apply (exits_bind _ w (full_take_action store_length [value] namespace)).
    now apply take_length_bad.
  - cbn [only_flags forallb fst] in Hflags.
    apply andb_true_iff in Hflags. destruct Hflags as [Ha Hrest].
    rewrite <- app_comm_cons. cbn [take_actions].
    destruct a; try discriminate; cbn [full_take_action];
      rewrite bind_ret; apply IH; assumption.
Qed.

(** The option is in one argument and the value in the next. *)
Lemma separate_reaches (t : string) (tuple : Full.option_tuple)
    (tuples : list (action * list string)) (post : list string) :
  (t =? "--")%string = false ->
  Full.parse_optional t = Full.arg_O tuple ->
  opening tuple = Some (Full.gather_more tuples store_length) ->
  only_flags tuples = true ->
  (forall namespace extras w,
      exits_from_parser false w
        (bind
           (full_consume
              (combine ([t; value] ++ post)
                 (Full.classify ([t; value] ++ post)))
              namespace extras)
           full_reject_extras w))
  /\ (forall v rest',
         combine ([t; value] ++ post) (Full.classify ([t; value] ++ post))
         <> (v, Full.arg_A) :: rest').
Proof.
  intros Ht Hclass Hopen Hflags.
  cbn [app]. rewrite (full_classify_cons t _ Ht), Hclass. cbn [combine].
  split; [| discriminate].
  intros namespace extras w. apply exits_bind.
  assert (Hstep :
    exits_from_parser false w
      (match nargs store_length with
       | 0%nat =>
           namespace' <-
             take_actions (tuples ++ [(store_length, [])])%list namespace ;;
           full_consume
             (combine (value :: post) (Full.classify (value :: post)))
             namespace' extras
       | _ =>
           match combine (value :: post) (Full.classify (value :: post)) with
           | (v, Full.arg_A) :: rest' =>
               namespace' <-
                 take_actions (tuples ++ [(store_length, [v])])%list
                   namespace ;;
               full_consume rest' namespace' extras
           | _ => argument_error store_length "expected one argument"
           end
       end w)).
  { cbn [nargs Full.classify].
    destruct (value =? "--")%string eqn:Hv;
      [cbn [combine]; apply exits_error |].
    destruct (Full.parse_optional value); cbn [combine];
      try apply exits_error.
    apply (exits_bind _ w
             (take_actions (tuples ++ [(store_length, [value])]) namespace)).
    now apply take_flags_then_length. }
  destruct tuple as [[a |] option_string [explicit_arg |]];
    cbn [opening] in Hopen; try discriminate; cbn [full_consume].
  - assert (Hg : Full.gather a option_string explicit_arg
                 = Full.gather_more tuples store_length) by congruence.
    rewrite Hg. exact Hstep.
  - assert (Ha : a = store_length) by congruence.
    assert (Ht' : tuples = []) by congruence.
    subst a tuples. exact Hstep.
Qed.

(** The option and the value are in one argument. *)
Lemma single_reaches (t : string) (a : action)
    (option_string explicit_arg : string)
    (tuples : list (action * list string)) (post : list string) :
  (t =? "--")%string = false ->
  Full.parse_optional t
  = Full.arg_O (Full.mk_tuple (Some a) option_string (Some explicit_arg)) ->
  Full.gather a option_string explicit_arg
  = Full.gather_done (tuples ++ [(store_length, [value])]) ->
  only_flags tuples = true ->
  (value =? "--")%string = false ->
  (forall namespace extras w,
      exits_from_parser false w
        (bind
           (full_consume
              (combine ([t] ++ post) (Full.classify ([t] ++ post)))
              namespace extras)
           full_reject_extras w))
  /\ (forall v rest',
         combine ([t] ++ post) (Full.classify ([t] ++ post))
         <> (v, Full.arg_A) :: rest').
Proof.
  intros Ht Hclass Hgather Hflags Hv.
  cbn [app]. rewrite (full_classify_cons t _ Ht), Hclass. cbn [combine].
  split; [| discriminate].
  intros namespace extras w. apply exits_bind.
  cbn [full_consume]. rewrite Hgather.
  apply (exits_bind _ w
           (take_actions (tuples ++ [(store_length, [value])]) namespace)).
  now apply take_flags_then_length.
Qed.

End BadValue.

End FullLength.

(** ** How the parser reads each spelling *)

Section Spellings.

Import Argparse.

Local Open Scope string_scope.

Lemma substring_all (s : string) : substring 0 (String.length s) s = s.
Proof. induction s as [| c s IH]; simpl; [reflexivity | now rewrite IH]. Qed.

Lemma long_name_class (o : string) :
  In o long_names ->
  (o =? "--") = false
  /\ Full.parse_optional o
     = Full.arg_O (Full.mk_tuple (Some store_length) "--length" None).
Proof.
  unfold long_names. intros Ho.
  repeat (destruct Ho as [<- | Ho]; [split; reflexivity |]).
  destruct Ho.
Qed.

Lemma long_name_joined_class (o value : string) :
  In o long_names ->
  ((o ++ "=" ++ value) =? "--") = false
  /\ Full.parse_optional (o ++ "=" ++ value)
     = Full.arg_O
         (Full.mk_tuple (Some store_length) "--length" (Some value)).
Proof.
  unfold long_names. intros Ho.
  repeat (destruct Ho as [<- | Ho]; [split; reflexivity |]).
  destruct Ho.
Qed.

Lemma short_joined_class (value : string) :
  (("-l=" ++ value) =? "--") = false
  /\ Full.parse_optional ("-l=" ++ value)
     = Full.arg_O (Full.mk_tuple (Some store_length) "-l" (Some value)).
Proof. split; reflexivity. Qed.

Lemma gather_length (option_string explicit_arg : string) :
  Full.gather store_length option_string explicit_arg
  = Full.gather_done [(store_length, [explicit_arg])].
Proof. destruct explicit_arg; reflexivity. Qed.

Lemma split_eq_cons (c : ascii) (s : string) :
  Ascii.eqb c "=" = false ->
  Full.split_eq (String c s)
  = match Full.split_eq s with
    | Some (before, after) => Some (String c before, after)
    | None => None
    end.
Proof. intros Hc. cbn [Full.split_eq]. rewrite Hc. reflexivity. Qed.

(** The short options of the parser. *)
Lemma short_option_cases (f : ascii) (a : action) :
  option_string_actions (String "-" (String f "")) = Some a ->
  (f = "h"%char /\ a = help) \/ (f = "l"%char /\ a = store_length)
  \/ (f = "n"%char /\ a = store_numbers)
  \/ (f = "s"%char /\ a = store_symbols).
Proof.
  intros Ha.
  destruct f as [[] [] [] [] [] [] [] []]; try discriminate Ha;
    injection Ha as <-; auto.
Qed.

(** A short option followed in the same argument by a character that is
    not [=]: the rest of the argument is the option's explicit
    argument. *)
Lemma short_attached_class (f g : ascii) (tail : string) (a : action) :
  option_string_actions (String "-" (String f "")) = Some a ->
  Ascii.eqb g "=" = false ->
  let t := String "-" (String f (String g tail)) in
  (t =? "--") = false
  /\ Full.parse_optional t
     = Full.arg_O
         (Full.mk_tuple (Some a) (String "-" (String f ""))
            (Some (String g tail))).
Proof.
  intros Ha Hg t.
  assert (Hsub : substring 0 (String.length tail) tail = tail)
    by apply substring_all.
  assert (Htable : forall r,
            f <> "-"%char ->
            option_string_actions (String "-" (String f (String g r)))
            = None).
  { intros r Hf.
    destruct (short_option_cases f a Ha)
      as [[-> _] | [[-> _] | [[-> _] | [-> _]]]]; reflexivity. }
  assert (Hsplit :
    Full.split_eq t
    = match Full.split_eq tail with
      | Some (before, after) =>
          Some (String "-" (String f (String g before)), after)
      | None => None
      end).
  { subst t.
    rewrite (split_eq_cons "-") by reflexivity.
    rewrite (split_eq_cons f)
      by (destruct (short_option_cases f a Ha)
            as [[-> _] | [[-> _] | [[-> _] | [-> _]]]]; reflexivity).
    rewrite (split_eq_cons g) by exact Hg.
    destruct (Full.split_eq tail) as [[before after] |]; reflexivity. }
  assert (Hf : f <> "-"%char)
    by (destruct (short_option_cases f a Ha)
          as [[-> _] | [[-> _] | [[-> _] | [-> _]]]]; discriminate).
  assert (Htuples :
    Full.get_option_tuples t
    = [Full.mk_tuple (Some a) (String "-" (String f ""))
         (Some (String g tail))]).
  { subst t. unfold Full.get_option_tuples.
    cbn [String.length Nat.sub].
    change (substring 2 (S (String.length tail))
              (String "-" (String f (String g tail))))
      with (String g (substring 0 (String.length tail) tail)).
    rewrite Hsub.
    destruct (short_option_cases f a Ha)
      as [[-> ->] | [[-> ->] | [[-> ->] | [-> ->]]]]; reflexivity. }
  split.
  { subst t.
    destruct (short_option_cases f a Ha)
      as [[-> _] | [[-> _] | [[-> _] | [-> _]]]]; reflexivity. }
  assert (Hnone : option_string_actions t = None) by exact (Htable tail Hf).
  assert (Hlen : (String.length t =? 1)%nat = false) by reflexivity.
  unfold Full.parse_optional. unfold t at 1. cbv beta iota.
  change (negb (Ascii.eqb "-" "-")) with false. cbv iota.
  rewrite Hnone, Hlen, Hsplit, Htuples.
  destruct (Full.split_eq tail) as [[before after] |];
    [rewrite (Htable before Hf) |]; reflexivity.
Qed.

(** The loop over flags written in one argument before [l]. *)
Lemma gather_flags (fs : string) :
  flags fs = true ->
  forall (a : action) (option_string value : string),
    a = store_numbers \/ a = store_symbols ->
    Full.second_is_dash option_string = false ->
    exists tuples,
      only_flags tuples = true
      /\ Full.gather a option_string (fs ++ String "l" value)
         = match value with
           | EmptyString => Full.gather_more tuples store_length
           | _ =>
               Full.gather_done (tuples ++ [(store_length, [value])])%list
           end.
Proof.
  induction fs as [| f fs IH]; intros Hfs a option_string value Ha Hos.
  - exists [(a, [])]. split; [destruct Ha as [-> | ->]; reflexivity |].
    cbn [append Full.gather].
    assert (Hn : nargs a = 0%nat) by (destruct Ha as [-> | ->]; reflexivity).
    rewrite Hn, Hos.
    change (option_string_actions (String "-" (String "l" "")))
      with (Some store_length).
    destruct value as [| c v]; [reflexivity |].
    rewrite gather_length. reflexivity.
  - unfold flags, CharClass.all in Hfs. cbn [list_ascii_of_string forallb] in Hfs.
    apply andb_true_iff in Hfs. destruct Hfs as [Hf Hfs].
    assert (Ha' : exists a',
              option_string_actions (String "-" (String f "")) = Some a'
              /\ (a' = store_numbers \/ a' = store_symbols)
              /\ Full.second_is_dash (String "-" (String f "")) = false).
    { apply orb_true_iff in Hf. destruct Hf as [Hf | Hf];
        apply Ascii.eqb_eq in Hf; subst f;
        [exists store_numbers | exists store_symbols]; auto. }
    destruct Ha' as [a' [Hact [Hflag Hdash]]].
    destruct (IH Hfs a' (String "-" (String f "")) value Hflag Hdash)
      as [tuples [Hflags Hgather]].
    exists ((a, []) :: tuples).
    split.
    { cbn [only_flags forallb fst]. fold (only_flags tuples).
      rewrite Hflags. destruct Ha as [-> | ->]; reflexivity. }
    cbn [append Full.gather].
    assert (Hn : nargs a = 0%nat) by (destruct Ha as [-> | ->]; reflexivity).
    rewrite Hn, Hos, Hact.
    assert (Hrest : exists c r, fs ++ String "l" value = String c r)
      by (destruct fs; simpl; eauto).
    destruct Hrest as [c [r Hrest]].
    rewrite Hrest in Hgather |- *. rewrite Hgather.
    destruct value; reflexivity.
Qed.

Lemma flags_head (fs suffix : string) :
  flags fs = true ->
  exists g tail,
    fs ++ String "l" suffix = String g tail /\ Ascii.eqb g "=" = false.
Proof.
  destruct fs as [| f fs]; intros Hfs.
  - exists "l"%char, suffix. auto.
  - exists f, (fs ++ String "l" suffix). split; [reflexivity |].
    unfold flags, CharClass.all in Hfs.
    cbn [list_ascii_of_string forallb] in Hfs.
    apply andb_true_iff in Hfs. destruct Hfs as [Hf _].
    apply orb_true_iff in Hf.
    destruct Hf as [Hf | Hf]; apply Ascii.eqb_eq in Hf; subst f; reflexivity.
Qed.

(** [-l], alone or last after flags, with nothing attached. *)
Lemma short_class (fs : string) :
  flags fs = true ->
  let t := "-" ++ fs ++ "l" in
  (t =? "--") = false
  /\ exists tuple tuples,
      Full.parse_optional t = Full.arg_O tuple
      /\ opening tuple = Some (Full.gather_more tuples store_length)
      /\ only_flags tuples = true.
Proof.
  intros Hfs t. subst t.
  destruct fs as [| f fs].
  - split; [reflexivity |].
    exists (Full.mk_tuple (Some store_length) "-l" None), [].
    repeat split; reflexivity.
  - unfold flags, CharClass.all in Hfs.
    cbn [list_ascii_of_string forallb] in Hfs.
    apply andb_true_iff in Hfs. destruct Hfs as [Hf Hfs].
    fold (CharClass.all (fun c => Ascii.eqb c "n" || Ascii.eqb c "s") fs)
      in Hfs. fold (flags fs) in Hfs.
    destruct (flags_head fs "" Hfs) as [g [tail [Hrest Hg]]].
    assert (Ha : exists a,
              option_string_actions (String "-" (String f "")) = Some a
              /\ (a = store_numbers \/ a = store_symbols)
              /\ Full.second_is_dash (String "-" (String f "")) = false).
    { apply orb_true_iff in Hf. destruct Hf as [Hf | Hf];
        apply Ascii.eqb_eq in Hf; subst f;
        [exists store_numbers | exists store_symbols]; auto. }
    destruct Ha as [a [Hact [Hflag Hdash]]].
    cbn [append]. rewrite Hrest.
    destruct (short_attached_class f g tail a Hact Hg) as [Hne Hclass].
    split; [exact Hne |].
    destruct (gather_flags fs Hfs a (String "-" (String f "")) "" Hflag Hdash)
      as [tuples [Hflags Hgather]].
    exists (Full.mk_tuple (Some a) (String "-" (String f ""))
              (Some (String g tail))), tuples.
    split; [exact Hclass |]. split; [| exact Hflags].
    cbn [opening]. rewrite <- Hrest, Hgather. reflexivity.
Qed.

(** [-l], alone or last after flags, with the value attached. *)
Lemma short_attached (fs value : string) :
  flags fs = true ->
  attachable value = true ->
  let t := "-" ++ fs ++ "l" ++ value in
  (t =? "--") = false
  /\ exists a option_string explicit_arg tuples,
      Full.parse_optional t
      = Full.arg_O
          (Full.mk_tuple (Some a) option_string (Some explicit_arg))
      /\ Full.gather a option_string explicit_arg
         = Full.gather_done (tuples ++ [(store_length, [value])])%list
      /\ only_flags tuples = true.
Proof.
  intros Hfs Hatt t. subst t.
  destruct value as [| c v]; [discriminate |].
  destruct fs as [| f fs].
  - cbn [attachable String.eqb negb orb] in Hatt.
    apply negb_true_iff in Hatt.
    destruct (short_attached_class "l" c v store_length eq_refl Hatt)
      as [Hne Hclass].
    split; [exact Hne |].
    exists store_length, "-l", (String c v), [].
    split; [exact Hclass |]. split; [apply gather_length | reflexivity].
  - unfold flags, CharClass.all in Hfs.
    cbn [list_ascii_of_string forallb] in Hfs.
    apply andb_true_iff in Hfs. destruct Hfs as [Hf Hfs].
    fold (CharClass.all (fun c => Ascii.eqb c "n" || Ascii.eqb c "s") fs)
      in Hfs. fold (flags fs) in Hfs.
    destruct (flags_head fs (String c v) Hfs) as [g [tail [Hrest Hg]]].
    assert (Ha : exists a,
              option_string_actions (String "-" (String f "")) = Some a
              /\ (a = store_numbers \/ a = store_symbols)
              /\ Full.second_is_dash (String "-" (String f "")) = false).
    { apply orb_true_iff in Hf. destruct Hf as [Hf | Hf];
        apply Ascii.eqb_eq in Hf; subst f;
        [exists store_numbers | exists store_symbols]; auto. }
    destruct Ha as [a [Hact [Hflag Hdash]]].
    change ("-" ++ String f fs ++ "l" ++ String c v)
      with (String "-" (String f (fs ++ String "l" (String c v)))).
    rewrite Hrest.
    destruct (short_attached_class f g tail a Hact Hg) as [Hne Hclass].
    split; [exact Hne |].
    destruct (gather_flags fs Hfs a (String "-" (String f "")) (String c v)
                Hflag Hdash)
      as [tuples [Hflags Hgather]].
    exists a, (String "-" (String f "")), (String g tail), tuples.
    split; [exact Hclass |]. split; [| exact Hflags].
    rewrite <- Hrest. exact Hgather.
Qed.

End Spellings.

(** ** A length the type function refuses, in every spelling *)

Section InvalidLengthSpellings.

Context `{P : Platform}.

Import Argparse.

Local Open Scope string_scope.

(** Each spelling makes the parser exit when the loop reaches it, and
    does not start with an argument an option before it could take. *)
Lemma spelling_reaches (value fs : string) (tokens post : list string) :
  (exists msg, positive_int value = Raise (ArgumentTypeError msg)) ->
  flags fs = true ->
  In tokens (length_spellings fs value) ->
  (forall namespace extras w,
      exits_from_parser false w
        (bind
           (full_consume
              (combine (tokens ++ post) (Full.classify (tokens ++ post)))
              namespace extras)
           full_reject_extras w))
  /\ (forall v rest',
         combine (tokens ++ post) (Full.classify (tokens ++ post))
         <> (v, Full.arg_A) :: rest').
Proof.
  intros Hbad Hfs Hin. unfold length_spellings in Hin.
  apply in_app_or in Hin. destruct Hin as [Hin | Hin].
  - (* the value is the next argument *)
    unfold separate_spellings in Hin. destruct Hin as [<- | Hin].
    + destruct (short_class fs Hfs)
        as [Ht [tuple [tuples [Hclass [Hopen Hflags]]]]].
      now apply (separate_reaches value Hbad _ tuple tuples post).
    + apply in_map_iff in Hin. destruct Hin as [o [<- Ho]].
      destruct (long_name_class o Ho) as [Ht Hclass].
      now apply (separate_reaches value Hbad o
                   (Full.mk_tuple (Some store_length) "--length" None)
                   [] post).
  - destruct (value =? "--") eqn:Hvalue; [destruct Hin |].
    apply in_app_or in Hin. destruct Hin as [Hin | Hin].
    + (* the value is joined with [=] *)
      unfold joined_spellings in Hin.
      apply in_app_or in Hin. destruct Hin as [Hin | Hin].
      * apply in_map_iff in Hin. destruct Hin as [o [<- Ho]].
        destruct (long_name_joined_class o value Ho) as [Ht Hclass].
        apply (single_reaches value Hbad _ store_length "--length" value
                 [] post); auto using gather_length.
      * destruct (fs =? ""); [| destruct Hin].
        destruct Hin as [<- | []].
        destruct (short_joined_class value) as [Ht Hclass].
        apply (single_reaches value Hbad _ store_length "-l" value
                 [] post); auto using gather_length.
    + (* the value is attached to [-l] *)
      unfold attached_spellings in Hin.
      destruct (attachable value) eqn:Hatt; [| destruct Hin].
      destruct Hin as [<- | []].
      destruct (short_attached fs value Hfs Hatt)
        as [Ht [a [os [e [tuples [Hclass [Hgather Hflags]]]]]]].
      now apply (single_reaches value Hbad _ a os e tuples post).
Qed.

(** C6, as the code has it: a length argument that does not parse as an
    integer, or parses to one below 1, makes [positive_int] raise
    [ArgumentTypeError], and a command line that gives it to the length
    option never reaches generation, however the option is spelled:
    [-l], [--length] or an abbreviation of it down to [--l], with the
    value in the next argument, joined with [=] or attached to [-l],
    and [-l] alone or last in one argument after flags [n] and [s].
    Whatever comes before and after, [main] ends in [SystemExit] with
    nothing drawn, printed or saved but one parser message.  The status
    is the usage-error status 2, except that an argument before it that
    asks for help ends the process first, with status 0. *)
Theorem invalid_length_rejected_in_every_spelling :
  forall value : string,
    py_int value = None \/ (exists v, py_int value = Some v /\ v < 1) ->
    (exists msg, positive_int value = Raise (ArgumentTypeError msg))
    /\ forall (fs : string) (tokens pre post : list string) (w : World),
        flags fs = true ->
        In tokens (length_spellings fs value) ->
        exists code w',
          full_main (pre ++ tokens ++ post) w
          = (Raise (SystemExit code), w')
          /\ rng w' = rng w
          /\ files w' = files w
          /\ ((code = 2
               /\ exists msg, log w' = (log w ++ [UsageError msg])%list)
              \/ (code = 0
                  /\ log w' = (log w ++ [HelpMessage])%list
                  /\ existsb asks_help pre = true)).
Proof.
  intros value Hvalue.
  pose proof (positive_int_rejects value Hvalue) as Hbad.
  split; [assumption |].
  intros fs tokens pre post w Hfs Hin.
  destruct (spelling_reaches value fs tokens post Hbad Hfs Hin)
    as [Hreach Hfirst].
  assert (Hexit :
    exits_from_parser (existsb asks_help pre) w
      (full_main (pre ++ tokens ++ post) w)).
  { unfold full_main. apply exits_bind.
    unfold full_parse_args, full_parse_known_args.
    destruct (Full.first_ambiguous
                (Full.classify (pre ++ tokens ++ post))) as [msg |].
    - apply exits_bind. apply exits_error.
    - now apply (full_consume_reaches tokens post Hreach Hfirst
                   (List.length pre)). }
  destruct Hexit as [code [Hr H]].
  destruct (full_main (pre ++ tokens ++ post) w) as [r w'].
  simpl in Hr, H. subst r. exists code, w'. split; [reflexivity | exact H].
Qed.

End InvalidLengthSpellings.

(** ** The parser in full on options spelled in full

    On a command line of option strings spelled in full and of arguments
    that do not start with a dash, the parser in full does what the
    parser for such command lines does, and so does [main]. *)

Section Agreement.

Context `{P : Platform}.

Import Argparse.

Local Open Scope string_scope.

Lemma option_string_cases (s : string) (a : action) :
  option_string_actions s = Some a -> In s Full.option_strings.
Proof.
  unfold option_string_actions, Full.option_strings. intros Ha.
  repeat match type of Ha with
         | context [String.eqb s ?o] =>
             destruct (String.eqb_spec s o) as [-> | _];
             [simpl; tauto | cbn [orb] in Ha]
         end.
  discriminate Ha.
Qed.

Lemma known_option_class (s : string) (a : action) :
  option_string_actions s = Some a ->
  (s =? "--") = false
  /\ Full.parse_optional s = Full.arg_O (Full.mk_tuple (Some a) s None)
  /\ parse_optional s = Some (Some a).
Proof.
  intros Ha. pose proof (option_string_cases s a Ha) as Hin.
  unfold Full.option_strings in Hin.
  repeat (destruct Hin as [<- | Hin];
          [injection Ha as <-; repeat split; reflexivity |]).
  destruct Hin.
Qed.

Lemma argument_class (s : string) :
  starts_with_dash s = false ->
  (s =? "--") = false
  /\ Full.parse_optional s = Full.arg_A
  /\ parse_optional s = None.
Proof.
  destruct s as [| c s']; [auto |].
  destruct (Ascii.eqb_spec c "-") as [-> | Hne]; [discriminate |].
  intros _. apply Ascii.eqb_neq in Hne.
  unfold Full.parse_optional, parse_optional. simpl. rewrite Hne. auto.
Qed.

Lemma plain_classify (argv : list string) :
  plain argv = true ->
  combine argv (Full.classify argv)
  = map full_item (combine argv (classify argv))
  /\ Full.first_ambiguous (Full.classify argv) = None
  /\ Forall (fun s => (s =? "--") = false) argv.
Proof.
  induction argv as [| s argv IH]; intros Hplain; [repeat split; auto |].
  cbn [plain forallb] in Hplain. apply andb_true_iff in Hplain.
  destruct Hplain as [Hs Hrest]. destruct (IH Hrest) as [Hc [Ha Hd]].
  cbn [Full.classify classify].
  unfold plain_token in Hs.
  destruct (option_string_actions s) as [a |] eqn:Hopt.
  - destruct (known_option_class s a Hopt) as [Hne [Hfull Hold]].
    rewrite Hne, Hfull, Hold. cbn [combine map Full.first_ambiguous].
    rewrite Hc. repeat split; auto.
  - apply negb_true_iff in Hs.
    destruct (argument_class s Hs) as [Hne [Hfull Hold]].
    rewrite Hne, Hfull, Hold. cbn [combine map Full.first_ambiguous].
    rewrite Hc. repeat split; auto.
Qed.

(** The loops agree when no argument is the separator [--]. *)
Lemma full_consume_agrees (n : nat) :
  forall items : list (string * arg_class),
    (List.length items <= n)%nat ->
    Forall (fun item => (fst item =? "--") = false) items ->
    forall (namespace : Namespace.t) (extras : list string) (w : World),
      full_consume (map full_item items) (stored_namespace namespace)
        extras w
      = map_outcome (fun parsed => (stored_namespace (fst parsed), snd parsed))
          (consume items namespace extras w).
Proof.
  induction n as [| n IH]; intros items Hlen Hitems namespace extras w.
  { destruct items; [reflexivity | simpl in Hlen; lia]. }
  destruct items as [| [s cls] rest]; [reflexivity |].
  simpl in Hlen. inversion Hitems as [| item items' Hs Hrest]; subst.
  destruct cls as [| | [a |]];
    cbn [map full_item full_class fst snd full_consume consume];
    try (apply IH; [lia | assumption]).
  destruct (nargs a) as [| k] eqn:Hnargs.
  - (* an option without value *)
    destruct a; try discriminate; cbn [app take_actions full_take_action
                                        take_action].
    + reflexivity.
    + rewrite !bind_ret.
      apply (IH rest ltac:(lia) Hrest (Namespace.set_numbers true namespace)).
    + rewrite !bind_ret.
      apply (IH rest ltac:(lia) Hrest (Namespace.set_symbols true namespace)).
  - (* an option with its value in the next argument *)
    destruct rest as [| [q cls'] rest']; [reflexivity |].
    inversion Hrest as [| item items' Hq Hrest']; subst.
    cbn [fst] in Hq.
    destruct cls' as [| | b];
      cbn [map full_item full_class fst snd]; try reflexivity.
    cbn [app take_actions].
    destruct a; try discriminate;
      cbn [full_take_action take_action]; unfold get_values;
      cbn [remove_dashes]; rewrite Hq.
    + (* the length *)
      unfold bind.
      destruct (get_length_value q w) as [[v | e] w1]; [| reflexivity].
      cbn [ret].
      apply (IH rest' ltac:(simpl in Hlen; lia) Hrest'
               (Namespace.set_length v namespace)).
    + (* the file *)
      rewrite !bind_ret.
      apply (IH rest' ltac:(simpl in Hlen; lia) Hrest'
               (Namespace.set_save (Some q) namespace)).
Qed.

Lemma full_parse_args_agrees (argv : list string) (w : World) :
  plain argv = true ->
  full_parse_args argv w = map_outcome stored_namespace (parse_args argv w).
Proof.
  intros Hplain. destruct (plain_classify argv Hplain) as [Hc [Ha Hd]].
  unfold full_parse_args, full_parse_known_args, parse_args,
    parse_known_args.
  rewrite Ha, Hc. unfold bind.
  change full_defaults with (stored_namespace defaults).
  rewrite (full_consume_agrees _ _ (le_n _)).
  - destruct (consume (combine argv (classify argv)) defaults [] w)
      as [[[namespace extras] | e] w1]; [| reflexivity].
    cbn [map_outcome]. unfold full_reject_extras, reject_extras.
    cbn [fst snd]. destruct extras; reflexivity.
  - clear Hc Ha Hplain. generalize (classify argv).
    induction Hd as [| s argv Hs Hd IH]; intros classes; [constructor |].
    destruct classes; [constructor |].
    cbn [combine]. constructor; [exact Hs | apply IH].
Qed.

(** [main] is the same with either parser. *)
Lemma full_main_agrees (argv : list string) (w : World) :
  plain argv = true -> full_main argv w = main argv w.
Proof.
  intros Hplain. unfold full_main, main, bind.
  rewrite (full_parse_args_agrees argv w Hplain).
  destruct (parse_args argv w) as [[args | e] w1]; [| reflexivity].
  cbn [map_outcome stored_namespace Full.Namespace.length
       Full.Namespace.numbers Full.Namespace.symbols Full.Namespace.save
       generate_password_stored].
  destruct (Namespace.save args) as [[| c path] |]; reflexivity.
Qed.

End Agreement.

Section FullRuns.

Local Existing Instance Reference.platform.

Import Reference.

Local Open Scope string_scope.

(** An abbreviation of [--help], or [h] among the flags of one argument,
    ends the process with status 0 before the length is looked at. *)
Lemma help_spellings_exit_zero :
  Forall
    (fun argv =>
       existsb asks_help (firstn 1 argv) = true
       /\ full_main argv w0
          = (Raise (SystemExit 0), mkWorld 0%nat [] [HelpMessage]))
    [["-h"; "-l"; "0"]; ["--help"; "-l"; "0"]; ["--he"; "-l"; "0"];
     ["--h"; "--length=0"]; ["-nh"; "-l"; "0"]; ["-snh"; "-l0"]].
Proof. repeat constructor. Qed.

(** The length option in its spellings, with the value 0. *)
Lemma zero_length_spellings_exit_two :
  Forall
    (fun argv =>
       full_main argv w0
       = (Raise (SystemExit 2),
          mkWorld 0%nat []
            [UsageError "argument -l/--length: length must be >= 1"]))
    [["-l"; "0"]; ["--length"; "0"]; ["--len"; "0"]; ["--l"; "0"];
     ["--length=0"]; ["--le=0"]; ["-l=0"]; ["-l0"]; ["-nl"; "0"];
     ["-nsl0"]; ["-n"; "--save"; "out.txt"; "-sl0"; "-h"]].
Proof. repeat constructor. Qed.

(** Joined or attached, the value [--] is dropped by the parser, which
    stores an empty list without calling [positive_int]; [range] then
    raises [TypeError]. *)
Lemma dashes_for_length_stored_as_list :
  Forall
    (fun argv =>
       full_parse_args argv w0
       = (Return (Full.Namespace.mk Full.EmptyList false false None), w0)
       /\ full_main argv w0
          = (Raise (TypeError
                      "'list' object cannot be interpreted as an integer"),
             w0))
    [["--length=--"]; ["-l--"]].
Proof. repeat constructor. Qed.

(** An abbreviation that fits two options is refused before any option
    is acted on, help included. *)
Lemma ambiguous_abbreviation_exits_two :
  full_main ["-h"; "--s"; "-l"; "0"] w0
  = (Raise (SystemExit 2),
     mkWorld 0%nat []
       [UsageError
          "ambiguous option: --s could match --symbols, --save"]).
Proof. reflexivity. Qed.

Lemma invalid_length_rejected_in_every_spelling_witness :
  (py_int "0" = None \/ (exists v, py_int "0" = Some v /\ v < 1))
  /\ flags "n" = true
  /\ In ["-nl0"] (length_spellings "n" "0")
  /\ exists code w',
       full_main (["--save"; "out.txt"] ++ ["-nl0"] ++ ["-s"]) w0
       = (Raise (SystemExit code), w')
       /\ rng w' = rng w0
       /\ files w' = files w0
       /\ ((code = 2
            /\ exists msg, log w' = (log w0 ++ [UsageError msg])%list)
           \/ (code = 0
               /\ log w' = (log w0 ++ [HelpMessage])%list
               /\ existsb asks_help ["--save"; "out.txt"] = true)).
Proof.
  assert (Hvalue :
    py_int "0" = None \/ (exists v, py_int "0" = Some v /\ v < 1)).
  { right. exists 0. split; [reflexivity | lia]. }
  assert (Hfs : flags "n" = true) by reflexivity.
  assert (Hin : In ["-nl0"] (length_spellings "n" "0")).
  { simpl. tauto. }
  split; [exact Hvalue |]. split; [exact Hfs |]. split; [exact Hin |].
  exact (proj2 (invalid_length_rejected_in_every_spelling "0" Hvalue)
           "n" ["-nl0"] ["--save"; "out.txt"] ["-s"] w0 Hfs Hin).
Defined.

End FullRuns.
